(** * GPS trace cleaning ([py/gps_cleaner.py]): a shallow embedding

    The development follows the source file function by function:
    [get_router_type], [get_route_via_forward_routing],
    [haversine_distance], [calculate_path_distance_coords],
    [validate_segment] and [clean_gps_route].  Python integers are [Z];
    Python lists are [list]; a raw waypoint [{'lat': y, 'lng': x}] is a
    record; the two-element lists [[lng, lat]] the code passes around are
    pairs.

    The routing collaborator [forwardRouting] is an arbitrary callable: it
    is modelled as a transition on a state of its own, so that two calls
    with the same arguments may answer differently.  Every call is also
    appended to a log, which is how "no routing call was made" is stated.

    What the source takes from Python and from its libraries is gathered
    in three classes: [Floats] (float arithmetic and the functions of
    [math]), [Shapely] (the projection of a point onto a line) and [Text]
    (the formatting of a number in an f-string, [json.loads] and
    [polyline.decode] on a string).  The exceptions that depend on the
    shape of a value are modelled: a body that does not parse, a missing
    key, a geometry that is not a string or ends inside a number, a line
    of a single point, which shapely refuses, and the empty line, which
    has no projection.  Float arithmetic and the functions of [math] are
    total: an exception raised inside one of them, or inside the
    collaborator, is outside the model.  The [print] calls of the source
    are not modelled.

    The module [Exact] takes the classes [Floats] and [Shapely] at the
    real numbers, with exact arithmetic and the exact nearest point of a
    polyline, to say what [validate_segment] computes up to rounding. *)

From Stdlib Require Import Reals Lra.
From Stdlib Require Import ZArith String Ascii DecimalString Bool Lia List Sorted.
Import ListNotations.

Set Warnings "-register-all".

Local Open Scope string_scope.
Local Open Scope list_scope.
Local Open Scope Z_scope.

(** ** Python lists *)

Module Py.

(** [len(l)] *)
Definition len {A : Type} (l : list A) : Z := Z.of_nat (length l).

(** [l[i]]: a negative index counts from the end; [None] stands for
    [IndexError]. *)
Definition getitem {A : Type} (l : list A) (i : Z) : option A :=
  if i <? 0
  then if 0 <=? len l + i then nth_error l (Z.to_nat (len l + i)) else None
  else nth_error l (Z.to_nat i).

(** [l[lo:hi]] for bounds that are not negative (the only use in the
    source is [raw_waypoints[anchor + 1 : probe]]). *)
Definition slice {A : Type} (l : list A) (lo hi : Z) : list A :=
  firstn (Z.to_nat (hi - lo)) (skipn (Z.to_nat lo) l).

(** [sep.join(ls)] *)
Definition join (sep : string) (ls : list string) : string := String.concat sep ls.

End Py.

(** ** Exceptions and results of a call *)

Inductive exn : Type :=
| TypeError (msg : string)
| KeyError (key : string)
| IndexError
| JSONDecodeError
| GEOSException
| AttributeError.

(** A call returns a value, raises, or (in the model only) exhausts the
    fuel of a loop. *)
Inductive outcome (A : Type) : Type :=
| Returned (a : A)
| Raised (e : exn)
| OutOfFuel.

Arguments Returned {A} a.
Arguments Raised {A} e.
Arguments OutOfFuel {A}.

Definition obind {A B : Type} (o : outcome A) (k : A -> outcome B) : outcome B :=
  match o with
  | Returned a => k a
  | Raised e => Raised e
  | OutOfFuel => OutOfFuel
  end.

Notation "x <~ c1 ;; c2" := (obind c1 (fun x => c2))
  (at level 61, c1 at next level, right associativity).

(** [get_router_type]: a dictionary lookup with default ["rail"]. *)
Definition get_router_type (trip_type : string) : string :=
  if (trip_type =? "bus")%string then "driving"
  else if (trip_type =? "car")%string then "driving"
  else if (trip_type =? "train")%string then "rail"
  else if (trip_type =? "metro")%string then "rail"
  else if (trip_type =? "tram")%string then "rail"
  else if (trip_type =? "ferry")%string then "rail"
  else if (trip_type =? "aerialway")%string then "rail"
  else if (trip_type =? "walk")%string then "foot"
  else if (trip_type =? "cycle")%string then "cycling"
  else "rail".

(** What the transport hands back: a flask [Response] (with its body),
    a [str], or any other object. *)
Inductive response : Type :=
| FlaskResponse (data : string)
| StrResponse (s : string)
| OtherResponse.

Section Cleaner.

(** Python numbers (coordinates, distances, ratios). *)
Context {number : Type}.

(** A raw waypoint [{'lat': y, 'lng': x}]. *)
Record geopoint : Type := { lat : number; lng : number }.

(** The code's [[lng, lat]]. *)
Definition coords : Type := (number * number)%type.

Definition coords_of (wp : geopoint) : coords := (lng wp, lat wp).

(** [{"lat": coord[1], "lng": coord[0]}] *)
Definition to_dict (c : coords) : geopoint := {| lat := snd c; lng := fst c |}.

(** Values produced by [json.loads]. *)
Inductive json : Type :=
| JNull
| JBool (b : bool)
| JInt (z : Z)
| JFloat (x : number)
| JString (s : string)
| JArray (l : list json)
| JObject (kv : list (string * json)).

(** Python floats and the functions of [math]. *)
Class Floats : Type := {
  (** an [int] used where a [float] is expected *)
  of_int : Z -> number;
  (** [+], [-], [*], [/], [** n] and [>] on floats *)
  f_add : number -> number -> number;
  f_sub : number -> number -> number;
  f_mul : number -> number -> number;
  f_div : number -> number -> number;
  f_pow : number -> Z -> number;
  f_gt : number -> number -> bool;
  (** the functions of [math] *)
  math_radians : number -> number;
  math_sin : number -> number;
  math_cos : number -> number;
  math_sqrt : number -> number;
  math_atan2 : number -> number -> number
}.

(** shapely: [line.interpolate(line.project(p))] as [[x, y]], for a line
    of two or more points. *)
Class Shapely : Type := {
  line_project : list coords -> coords -> coords
}.

(** Formatting and parsing. *)
Class Text : Type := {
  (** [f"{x}"] for a number *)
  show_number : number -> string;
  (** [json.loads]; [None] stands for [json.JSONDecodeError] *)
  json_loads : string -> option json;
  (** [polyline.decode] on a string that is not empty: a list of
      [(lat, lng)] tuples; [None] stands for the [IndexError] of a string
      that ends inside a number *)
  polyline_decode : string -> option (list (number * number))
}.

Context {floats : Floats} {shapely : Shapely} {text : Text}.

(** The collaborator: its state and the callable [forwardRouting]. *)
Context {engine : Type}.
Variable forwardRouting : string -> string -> string -> engine -> response * engine.

(** ** The state the calls run in *)

Record world : Type := {
  collaborator : engine;
  calls : list (string * string * string)
}.

Definition M (A : Type) : Type := world -> outcome A * world.

Definition ret {A : Type} (a : A) : M A := fun w => (Returned a, w).

Definition raise {A : Type} (e : exn) : M A := fun w => (Raised e, w).

Definition out_of_fuel {A : Type} : M A := fun w => (OutOfFuel, w).

Definition bind {A B : Type} (c : M A) (k : A -> M B) : M B :=
  fun w =>
    match c w with
    | (Returned a, w') => k a w'
    | (Raised e, w') => (Raised e, w')
    | (OutOfFuel, w') => (OutOfFuel, w')
    end.

Definition lift {A : Type} (o : outcome A) : M A := fun w => (o, w).

Notation "x <- c1 ;; c2" := (bind c1 (fun x => c2))
  (at level 61, c1 at next level, right associativity).

(** [response = forwardRouting(router_path, trip_type, options)] *)
Definition call_forwardRouting (router_path trip_type options : string) : M response :=
  fun w =>
    let (r, s') := forwardRouting router_path trip_type options (collaborator w) in
    (Returned r,
     {| collaborator := s'; calls := calls w ++ [(router_path, trip_type, options)] |}).

(** ** Subscripting JSON values *)

Fixpoint dict_get (k : string) (kv : list (string * json)) : option json :=
  match kv with
  | [] => None
  | (k', v) :: rest => if (k' =? k)%string then Some v else dict_get k rest
  end.

(** [v[k]] for a string key [k]. *)
Definition subscript_key (v : json) (k : string) : outcome json :=
  match v with
  | JObject kv =>
      match dict_get k kv with
      | Some x => Returned x
      | None => Raised (KeyError k)
      end
  | JString _ => Raised (TypeError "string indices must be integers")
  | JArray _ => Raised (TypeError "list indices must be integers or slices, not str")
  | _ => Raised (TypeError "object is not subscriptable")
  end.

(** [v[0]] *)
Definition subscript_zero (v : json) : outcome json :=
  match v with
  | JArray (x :: _) => Returned x
  | JArray [] => Raised IndexError
  | JString (String c _) => Returned (JString (String c EmptyString))
  | JString EmptyString => Raised IndexError
  | JObject _ => Raised (KeyError "0")
  | _ => Raised (TypeError "object is not subscriptable")
  end.

(** [v.get(k, 0)] on the dictionary [v]. *)
Definition dict_get_default0 (v : json) (k : string) : outcome json :=
  match v with
  | JObject kv =>
      match dict_get k kv with
      | Some x => Returned x
      | None => Returned (JInt 0)
      end
  | _ => Raised (TypeError "object has no attribute get")
  end.

(** The name of the Python type of a value produced by [json.loads]. *)
Definition type_name (v : json) : string :=
  match v with
  | JNull => "NoneType"
  | JBool _ => "bool"
  | JInt _ => "int"
  | JFloat _ => "float"
  | JString _ => "str"
  | JArray _ => "list"
  | JObject _ => "dict"
  end.

(** [ord(x)]: the character of a string of length 1. *)
Definition ord (x : json) : outcome ascii :=
  match x with
  | JString (String c EmptyString) => Returned c
  | JString s =>
      Raised (TypeError ("ord() expected a character, but string of length "
                         ++ NilZero.string_of_uint (Nat.to_uint (String.length s))
                         ++ " found"))
  | _ => Raised (TypeError ("ord() expected string of length 1, but "
                            ++ type_name x ++ " found"))
  end.

(** [polyline.decode] reads its argument one index after the other, from
    0 on, with [ord(value[index])]: on a list it reads the characters of
    the list, up to the first element that is not one. *)
Fixpoint characters (l : list json) : outcome string :=
  match l with
  | [] => Returned EmptyString
  | x :: rest =>
      c <~ ord x ;;
      s <~ characters rest ;;
      Returned (String c s)
  end.

(** [polyline.decode] on characters: nothing is read when there is
    none. *)
Definition decode_string (s : string) : outcome (list (number * number)) :=
  match s with
  | EmptyString => Returned []
  | String _ _ =>
      match polyline_decode s with
      | Some decoded_coords => Returned decoded_coords
      | None => Raised IndexError
      end
  end.

(** [polyline.decode(encoded_geometry)], line 164, on any value of the
    parsed answer: the library takes [len] of its argument and then reads
    it by index, whatever its type. *)
Definition decode_geometry (encoded_geometry : json)
  : outcome (list (number * number)) :=
  match encoded_geometry with
  | JString s => decode_string s
  | JArray l => s <~ characters l ;; decode_string s
  | JObject [] => Returned []
  | JObject (_ :: _) => Raised (KeyError "0")
  | _ => Raised (TypeError ("object of type '" ++ type_name encoded_geometry
                            ++ "' has no len()"))
  end.

(** [code != "Ok"] *)
Definition is_not_Ok (code : json) : bool :=
  match code with
  | JString s => negb (s =? "Ok")%string
  | _ => true
  end.

(** ** RoutingClient: [get_route_via_forward_routing] *)

(** The function returns [route_coords], or the triple
    [(route_coords, distance, duration)] when [return_details] is set. *)
Definition route_ret (return_details : bool) : Type :=
  if return_details
  then (option (list coords) * json * json)%type
  else option (list coords).

(** [None if not return_details else (None, 0, 0)] *)
Definition no_route (return_details : bool) : route_ret return_details :=
  match return_details as b return route_ret b with
  | true => (None, JInt 0, JInt 0)
  | false => None
  end.

(** [f"{wp[0]},{wp[1]}"] *)
Definition show_waypoint (wp : coords) : string :=
  (show_number (fst wp) ++ "," ++ show_number (snd wp))%string.

(** [router_path], lines 143 and 150. *)
Definition router_path_of (router_type : string) (waypoints : list coords) : string :=
  let path_str := Py.join ";" (map show_waypoint waypoints) in
  ("route/v1/" ++ router_type ++ "/" ++ path_str)%string.

(** [options], lines 144 to 148. *)
Definition options_of (router_type : string) (waypoints : list coords) : string :=
  let options := "overview=full&continue_straight=false&snapping=any" in
  let radius := if (router_type =? "rail")%string then "1000" else "150" in
  let radiuses := Py.join ";" (repeat radius (length waypoints)) in
  (options ++ "&radiuses=" ++ radiuses)%string.

(** Lines 153 to 172: what the function makes of the transport's
    answer. *)
Definition decode_response (return_details : bool) (resp : response)
  : outcome (route_ret return_details) :=
  routing_result <~
    match resp with
    | FlaskResponse data =>
        match json_loads data with
        | Some v => Returned v
        | None => Raised JSONDecodeError
        end
    | StrResponse s =>
        match json_loads s with
        | Some v => Returned v
        | None => Raised JSONDecodeError
        end
    | OtherResponse => Raised (TypeError "Unsupported response type")
    end ;;
  code <~ subscript_key routing_result "code" ;;
  if is_not_Ok code then Returned (no_route return_details)
  else
    routes <~ subscript_key routing_result "routes" ;;
    route0 <~ subscript_zero routes ;;
    encoded_geometry <~ subscript_key route0 "geometry" ;;
    decoded_coords <~ decode_geometry encoded_geometry ;;
    let route_coords := map (fun coord => (snd coord, fst coord)) decoded_coords in
    match return_details as b return outcome (route_ret b) with
    | true =>
        route_distance <~ dict_get_default0 route0 "distance" ;;
        route_duration <~ dict_get_default0 route0 "duration" ;;
        Returned (Some route_coords, route_distance, route_duration)
    | false => Returned (Some route_coords)
    end.

Definition get_route_via_forward_routing (router_type : string)
    (waypoints : list coords) (return_details : bool) (trip_type : string)
  : M (route_ret return_details) :=
  let router_path := router_path_of router_type waypoints in
  let options := options_of router_type waypoints in
  resp <- call_forwardRouting router_path trip_type options ;;
  lift (decode_response return_details resp).

(** ** GeoMath: [haversine_distance] and [calculate_path_distance_coords] *)

Definition haversine_distance (point1 point2 : coords) : number :=
  let R := of_int 6371000 in
  let lat1 := math_radians (snd point1) in
  let lon1 := math_radians (fst point1) in
  let lat2 := math_radians (snd point2) in
  let lon2 := math_radians (fst point2) in
  let dlat := f_sub lat2 lat1 in
  let dlon := f_sub lon2 lon1 in
  let a :=
    f_add (f_pow (math_sin (f_div dlat (of_int 2))) 2)
          (f_mul (f_mul (math_cos lat1) (math_cos lat2))
                 (f_pow (math_sin (f_div dlon (of_int 2))) 2)) in
  let c :=
    f_mul (of_int 2) (math_atan2 (math_sqrt a) (math_sqrt (f_sub (of_int 1) a))) in
  f_mul R c.

(** The loop over [range(len(coords) - 1)], with its accumulator. *)
Fixpoint sum_of_legs (coords : list coords) (total_distance : number) : number :=
  match coords with
  | [] => total_distance
  | a :: rest =>
      match rest with
      | [] => total_distance
      | b :: _ => sum_of_legs rest (f_add total_distance (haversine_distance a b))
      end
  end.

Definition calculate_path_distance_coords (coords : list coords) : number :=
  if Py.len coords <? 2 then of_int 0
  else sum_of_legs coords (of_int 0).

(** ** SegmentValidator: [validate_segment] *)

(** [LineString(route_coords)], line 120: shapely builds the empty line
    from no point and a line from two or more points, and refuses a
    single point. *)
Definition LineString (route_coords : list coords) : outcome (list coords) :=
  match route_coords with
  | [_] => Raised GEOSException
  | _ => Returned route_coords
  end.

(** Lines 122 to 126: [[projected_point.x, projected_point.y]].  On the
    empty line [project] gives [nan] and [interpolate] then gives [None],
    which has no attribute [x]. *)
Definition projection (line : list coords) (p_coords : coords) : outcome coords :=
  match line with
  | [] => Raised AttributeError
  | _ :: _ => Returned (line_project line p_coords)
  end.

(** The [for] loop of lines 121 to 130, with its early [return False]. *)
Fixpoint validate_points (line : list coords) (points : list coords)
    (threshold : number) : outcome bool :=
  match points with
  | [] => Returned true
  | p_coords :: rest =>
      projected_point <~ projection line p_coords ;;
      let real_distance := haversine_distance p_coords projected_point in
      if f_gt real_distance threshold then Returned false
      else validate_points line rest threshold
  end.

Definition validate_segment (route_coords : list coords)
    (intermediate_points : list coords) (threshold : number) : outcome bool :=
  match intermediate_points with
  | [] => Returned true
  | _ :: _ =>
      line <~ LineString route_coords ;;
      validate_points line intermediate_points threshold
  end.

(** [segment_coords and validate_segment(segment_coords, ...)]: [None]
    and the empty list are falsy, and [and] does not evaluate its second
    operand then.  Line 55 tests the negation of the same condition. *)
Definition acceptable (segment_coords : option (list coords))
    (intermediate_gps : list coords) (threshold : number) : outcome bool :=
  match segment_coords with
  | None => Returned false
  | Some [] => Returned false
  | Some (p :: l) => validate_segment (p :: l) intermediate_gps threshold
  end.

(** ** RouteSnapper: [clean_gps_route] *)

(** The dictionary the function returns: [{"success": False, "error": e}]
    or the seven-key dictionary of lines 101 to 109. *)
Inductive cleaning_result : Type :=
| Failure (error : string)
| Success (waypoints : list geopoint) (path : list geopoint)
          (distance : number) (duration : Z) (reroute_count : Z)
          (compression_ratio : number).

Definition success (r : cleaning_result) : bool :=
  match r with
  | Failure _ => false
  | Success _ _ _ _ _ _ => true
  end.

(** The variables of the main loop.  The last two fields are history
    variables that the source does not have: every value assigned to
    [last_anchor_idx], and for every committed segment its
    [best_next_idx] with its [final_segment_coords]. *)
Record loop_state : Type := {
  last_anchor_idx : Z;
  key_waypoints_coords : list coords;
  final_route_coords : list coords;
  anchor_trace : list Z;
  commits : list (Z * list coords)
}.

Section Run.

Variable raw_waypoints : list geopoint.
Variable trip_type : string.
Variable deviation_threshold : number.

Definition total_points : Z := Py.len raw_waypoints.

Definition router_type : string := get_router_type trip_type.

(** [[raw_waypoints[i]["lng"], raw_waypoints[i]["lat"]]] *)
Definition point_at (i : Z) : M coords :=
  match Py.getitem raw_waypoints i with
  | Some wp => ret (coords_of wp)
  | None => raise IndexError
  end.

(** [[[wp["lng"], wp["lat"]] for wp in raw_waypoints[lo:hi]]] *)
Definition intermediate (lo hi : Z) : list coords :=
  map coords_of (Py.slice raw_waypoints lo hi).

(** The [while True] loop of lines 43 to 60.  It returns
    [(lower_bound_idx, upper_bound_idx)]; the latter is assigned on both
    ways out, so its initial [-1] is never read. *)
Fixpoint expansion (fuel : nat) (start_point : coords)
    (last_anchor_idx lower_bound_idx probe_step : Z) : M (Z * Z) :=
  match fuel with
  | O => out_of_fuel
  | S fuel' =>
      let probe_idx := last_anchor_idx + probe_step in
      if total_points <=? probe_idx then ret (lower_bound_idx, total_points - 1)
      else
        probe_point <- point_at probe_idx ;;
        segment_coords <-
          get_route_via_forward_routing router_type [start_point; probe_point]
            false trip_type ;;
        let intermediate_gps := intermediate (last_anchor_idx + 1) probe_idx in
        ok <- lift (acceptable segment_coords intermediate_gps deviation_threshold) ;;
        if negb ok
        then ret (lower_bound_idx, probe_idx)
        else expansion fuel' start_point last_anchor_idx probe_idx (probe_step * 2)
  end.

(** The [while lower_bound_idx <= upper_bound_idx] loop of lines 63 to
    78.  It returns [best_next_idx]. *)
Fixpoint binary_search (fuel : nat) (start_point : coords)
    (last_anchor_idx lower_bound_idx upper_bound_idx best_next_idx : Z) : M Z :=
  match fuel with
  | O => out_of_fuel
  | S fuel' =>
      if lower_bound_idx <=? upper_bound_idx then
        let mid_idx := (lower_bound_idx + upper_bound_idx) / 2 in
        if mid_idx <=? last_anchor_idx then ret best_next_idx
        else
          candidate_point <- point_at mid_idx ;;
          segment_coords <-
            get_route_via_forward_routing router_type [start_point; candidate_point]
              false trip_type ;;
          let intermediate_gps := intermediate (last_anchor_idx + 1) mid_idx in
          ok <- lift (acceptable segment_coords intermediate_gps deviation_threshold) ;;
          if ok
          then binary_search fuel' start_point last_anchor_idx
                 (mid_idx + 1) upper_bound_idx mid_idx
          else binary_search fuel' start_point last_anchor_idx
                 lower_bound_idx (mid_idx - 1) best_next_idx
      else ret best_next_idx
  end.

(** Fuel for each of the three loops. *)
Definition loop_fuel : nat := S (length raw_waypoints).

(** Lines 39 to 78: both search phases from one anchor. *)
Definition search (start_point : coords) (last_anchor_idx : Z) : M Z :=
  bounds <- expansion loop_fuel start_point last_anchor_idx last_anchor_idx 1 ;;
  let lower_bound_idx := fst bounds in
  let upper_bound_idx := snd bounds in
  binary_search loop_fuel start_point last_anchor_idx
    lower_bound_idx upper_bound_idx lower_bound_idx.

(** Lines 80 to 92: skip one raw point, or commit the segment. *)
Definition commit_or_skip (st : loop_state) (start_point : coords)
    (best_next_idx : Z) : M loop_state :=
  if best_next_idx <=? last_anchor_idx st then
    ret {| last_anchor_idx := last_anchor_idx st + 1;
           key_waypoints_coords := key_waypoints_coords st;
           final_route_coords := final_route_coords st;
           anchor_trace := anchor_trace st ++ [last_anchor_idx st + 1];
           commits := commits st |}
  else
    final_segment_point <- point_at best_next_idx ;;
    final_segment_coords <-
      get_route_via_forward_routing router_type [start_point; final_segment_point]
        false trip_type ;;
    match final_segment_coords with
    | None => raise (TypeError "'NoneType' object is not subscriptable")
    | Some segment =>
        ret {| last_anchor_idx := best_next_idx;
               key_waypoints_coords := key_waypoints_coords st ++ [final_segment_point];
               final_route_coords := final_route_coords st ++ removelast segment;
               anchor_trace := anchor_trace st ++ [best_next_idx];
               commits := commits st ++ [(best_next_idx, segment)] |}
    end.

(** One pass through the body of the main loop, lines 33 to 92. *)
Definition iteration (st : loop_state) : M loop_state :=
  start_point <- point_at (last_anchor_idx st) ;;
  best_next_idx <- search start_point (last_anchor_idx st) ;;
  commit_or_skip st start_point best_next_idx.

(** [while last_anchor_idx < total_points - 1] *)
Fixpoint main_loop (fuel : nat) (st : loop_state) : M loop_state :=
  match fuel with
  | O => out_of_fuel
  | S fuel' =>
      if last_anchor_idx st <? total_points - 1 then
        st' <- iteration st ;;
        main_loop fuel' st'
      else ret st
  end.

(** The variables as lines 26 to 30 set them. *)
Definition initial_state (first : coords) : loop_state :=
  {| last_anchor_idx := 0;
     key_waypoints_coords := [first];
     final_route_coords := [];
     anchor_trace := [0];
     commits := [] |}.

(** Lines 94 to 109. *)
Definition finish (st : loop_state) : M cleaning_result :=
  match Py.getitem (key_waypoints_coords st) (-1) with
  | None => raise IndexError
  | Some last_key =>
      let final_route_coords := final_route_coords st ++ [last_key] in
      let route_distance := calculate_path_distance_coords final_route_coords in
      let final_path := map to_dict final_route_coords in
      let key_waypoints := map to_dict (key_waypoints_coords st) in
      ret (Success key_waypoints final_path route_distance 0
             (Py.len key_waypoints - 2)
             (match final_path with
              | [] => of_int 0
              | _ :: _ => f_div (of_int (Py.len raw_waypoints)) (of_int (Py.len final_path))
              end))
  end.

Definition clean_gps_route : M cleaning_result :=
  if Py.len raw_waypoints <? 2
  then ret (Failure "Need at least 2 waypoints")
  else
    first <- point_at 0 ;;
    st <- main_loop loop_fuel (initial_state first) ;;
    finish st.

(** The first [k] passes of the main loop, for talking about the states
    a run goes through. *)
Fixpoint run_prefix (k : nat) (st : loop_state) : M loop_state :=
  match k with
  | O => ret st
  | S k' =>
      if last_anchor_idx st <? total_points - 1 then
        st' <- iteration st ;;
        run_prefix k' st'
      else ret st
  end.

(** ** Reasoning about calls *)

(** [ensures r Q]: the call did not run out of fuel, and if it returned,
    its value and the state it left satisfy [Q]. *)
Definition ensures {A : Type} (r : outcome A * world) (Q : A -> world -> Prop) : Prop :=
  match r with
  | (Returned a, w') => Q a w'
  | (Raised _, _) => True
  | (OutOfFuel, _) => False
  end.

Lemma ensures_ret {A : Type} (a : A) (w : world) (Q : A -> world -> Prop) :
  Q a w -> ensures (ret a w) Q.
Proof. intro H; exact H. Qed.

Lemma ensures_raise {A : Type} (e : exn) (w : world) (Q : A -> world -> Prop) :
  ensures (raise e w) Q.
Proof. exact I. Qed.

Lemma ensures_bind {A B : Type} (c : M A) (k : A -> M B) (w : world)
    (Q1 : A -> world -> Prop) (Q2 : B -> world -> Prop) :
  ensures (c w) Q1 ->
  (forall a w1, Q1 a w1 -> ensures (k a w1) Q2) ->
  ensures (bind c k w) Q2.
Proof.
  unfold ensures, bind. destruct (c w) as [[a| e |] w1]; intros H1 H2.
  - apply H2, H1.
  - exact I.
  - contradiction.
Qed.

Lemma ensures_weaken {A : Type} (r : outcome A * world) (Q1 Q2 : A -> world -> Prop) :
  ensures r Q1 -> (forall a w, Q1 a w -> Q2 a w) -> ensures r Q2.
Proof.
  unfold ensures. destruct r as [[a| e |] w]; auto.
Qed.

Lemma bind_Returned {A B : Type} (c : M A) (k : A -> M B) (w w1 : world) (a : A) :
  c w = (Returned a, w1) -> bind c k w = k a w1.
Proof. unfold bind. intros ->. reflexivity. Qed.

Lemma bind_Raised {A B : Type} (c : M A) (k : A -> M B) (w w1 : world) (e : exn) :
  c w = (Raised e, w1) -> bind c k w = (Raised e, w1).
Proof. unfold bind. intros ->. reflexivity. Qed.

Lemma bind_inv_Returned {A B : Type} (c : M A) (k : A -> M B) (w w2 : world) (b : B) :
  bind c k w = (Returned b, w2) ->
  exists a w1, c w = (Returned a, w1) /\ k a w1 = (Returned b, w2).
Proof.
  unfold bind. destruct (c w) as [[a| e |] w1]; intro H; try discriminate.
  exists a, w1. split; [reflexivity | exact H].
Qed.

(** The model of a response never runs out of fuel: there is no loop in
    [get_route_via_forward_routing]. *)
Lemma obind_halts {A B : Type} (o : outcome A) (k : A -> outcome B) :
  o <> OutOfFuel -> (forall a, k a <> OutOfFuel) -> obind o k <> OutOfFuel.
Proof.
  destruct o as [a | e |]; simpl; intros Ho Hk; [apply Hk | discriminate | congruence].
Qed.

Lemma subscript_key_halts (v : json) (k : string) : subscript_key v k <> OutOfFuel.
Proof.
  destruct v; simpl; try discriminate. destruct (dict_get k kv); discriminate.
Qed.

Lemma subscript_zero_halts (v : json) : subscript_zero v <> OutOfFuel.
Proof.
  destruct v as [ | | | | s | l | kv]; simpl; try discriminate.
  - destruct s; discriminate.
  - destruct l; discriminate.
Qed.

Lemma dict_get_default0_halts (v : json) (k : string) :
  dict_get_default0 v k <> OutOfFuel.
Proof.
  destruct v; simpl; try discriminate. destruct (dict_get k kv); discriminate.
Qed.

Lemma ord_halts (x : json) : ord x <> OutOfFuel.
Proof.
  destruct x as [ | | | | s | | ]; simpl; try discriminate.
  destruct s as [| c [| c' s']]; discriminate.
Qed.

Lemma characters_halts (l : list json) : characters l <> OutOfFuel.
Proof.
  induction l as [| x rest IH]; simpl; [discriminate |].
  apply obind_halts; [apply ord_halts |]. intro c.
  apply obind_halts; [exact IH |]. discriminate.
Qed.

Lemma decode_string_halts (s : string) : decode_string s <> OutOfFuel.
Proof.
  destruct s as [| c s']; simpl; [discriminate |].
  destruct (polyline_decode (String c s')); discriminate.
Qed.

Lemma decode_geometry_halts (g : json) : decode_geometry g <> OutOfFuel.
Proof.
  destruct g as [ | | | | s | l | kv]; simpl; try discriminate.
  - apply decode_string_halts.
  - apply obind_halts; [apply characters_halts |]. intro s. apply decode_string_halts.
  - destruct kv; discriminate.
Qed.

Lemma decode_response_halts (return_details : bool) (resp : response) :
  decode_response return_details resp <> OutOfFuel.
Proof.
  unfold decode_response. apply obind_halts.
  - destruct resp as [data | s |]; try discriminate.
    + destruct (json_loads data); discriminate.
    + destruct (json_loads s); discriminate.
  - intro routing_result. apply obind_halts; [apply subscript_key_halts |].
    intro code. destruct (is_not_Ok code); [discriminate |].
    apply obind_halts; [apply subscript_key_halts |]. intro routes.
    apply obind_halts; [apply subscript_zero_halts |]. intro route0.
    apply obind_halts; [apply subscript_key_halts |]. intro g.
    apply obind_halts; [apply decode_geometry_halts |]. intro decoded_coords.
    destruct return_details; [| discriminate].
    apply obind_halts; [apply dict_get_default0_halts |]. intro d1.
    apply obind_halts; [apply dict_get_default0_halts |]. intro d2.
    discriminate.
Qed.

(** What the collaborator answers, and the state it is left in, when
    the client is called in state [w]. *)
Definition transport (rtype : string) (wps : list coords) (tt : string) (w : world)
  : response * engine :=
  forwardRouting (router_path_of rtype wps) tt (options_of rtype wps) (collaborator w).

Lemma get_route_unfold (rtype : string) (wps : list coords) (return_details : bool)
    (tt : string) (w : world) :
  get_route_via_forward_routing rtype wps return_details tt w =
  (decode_response return_details (fst (transport rtype wps tt w)),
   {| collaborator := snd (transport rtype wps tt w);
      calls := calls w ++ [(router_path_of rtype wps, tt, options_of rtype wps)] |}).
Proof.
  unfold get_route_via_forward_routing, bind, call_forwardRouting, lift, transport.
  destruct (forwardRouting _ _ _ _) as [r s']. reflexivity.
Qed.

Lemma get_route_ensures (rtype : string) (wps : list coords) (tt : string) (w : world) :
  ensures (get_route_via_forward_routing rtype wps false tt w) (fun _ _ => True).
Proof.
  rewrite get_route_unfold. unfold ensures.
  pose proof (decode_response_halts false (fst (transport rtype wps tt w))) as H.
  destruct (decode_response false (fst (transport rtype wps tt w)));
    [exact I | exact I | congruence].
Qed.

(** ** Indexing the raw trace *)

Lemma getitem_in_range {A : Type} (l : list A) (i : Z) :
  0 <= i < Py.len l -> exists x, Py.getitem l i = Some x.
Proof.
  intros [H0 H1]. unfold Py.getitem, Py.len in *.
  destruct (Z.ltb_spec i 0) as [Hneg | _]; [lia |].
  destruct (nth_error l (Z.to_nat i)) as [x |] eqn:E; [eauto |].
  apply nth_error_None in E. lia.
Qed.

Lemma point_at_in_range (i : Z) (w : world) :
  0 <= i < total_points ->
  exists wp, Py.getitem raw_waypoints i = Some wp /\
             point_at i w = (Returned (coords_of wp), w).
Proof.
  intro Hi. destruct (getitem_in_range raw_waypoints i Hi) as [wp Hwp].
  exists wp. split; [exact Hwp |]. unfold point_at. rewrite Hwp. reflexivity.
Qed.

Lemma point_at_ensures (i : Z) (w : world) :
  ensures (point_at i w) (fun _ w' => w' = w).
Proof.
  unfold point_at. destruct (Py.getitem raw_waypoints i); simpl; auto.
Qed.

(** ** The validator never runs out of fuel *)

Lemma validate_points_halts (line pts : list coords) (threshold : number) :
  validate_points line pts threshold <> OutOfFuel.
Proof.
  induction pts as [| p rest IH]; simpl; [discriminate |].
  destruct line as [| c line']; simpl; [discriminate |].
  destruct (f_gt _ threshold); [discriminate | exact IH].
Qed.

Lemma validate_segment_halts (route_coords pts : list coords) (threshold : number) :
  validate_segment route_coords pts threshold <> OutOfFuel.
Proof.
  destruct pts as [| p rest]; [discriminate |].
  unfold validate_segment. apply obind_halts.
  - destruct route_coords as [| c [| c' l]]; discriminate.
  - intro line. apply validate_points_halts.
Qed.

(** The test of lines 126 to 128 for one intermediate point: its distance
    to its projection on the line does not exceed the threshold. *)
Definition within (line : list coords) (threshold : number) (p_coords : coords) : bool :=
  negb (f_gt (haversine_distance p_coords (line_project line p_coords)) threshold).

Lemma validate_points_line (c : coords) (l pts : list coords) (threshold : number) :
  validate_points (c :: l) pts threshold
  = Returned (forallb (within (c :: l) threshold) pts).
Proof.
  induction pts as [| p rest IH]; [reflexivity |].
  cbn [validate_points projection obind forallb]. unfold within at 1.
  destruct (f_gt _ threshold); [reflexivity | exact IH].
Qed.

Lemma validate_segment_line (c c' : coords) (l pts : list coords) (threshold : number) :
  validate_segment (c :: c' :: l) pts threshold
  = Returned (forallb (within (c :: c' :: l) threshold) pts).
Proof.
  destruct pts as [| p rest]; [reflexivity |].
  unfold validate_segment, LineString. cbn [obind]. apply validate_points_line.
Qed.

Lemma acceptable_halts (seg : option (list coords)) (pts : list coords)
    (threshold : number) :
  acceptable seg pts threshold <> OutOfFuel.
Proof.
  destruct seg as [[| p l] |]; simpl; try discriminate.
  apply validate_segment_halts.
Qed.

Lemma lift_ensures {A : Type} (o : outcome A) (w : world) :
  o <> OutOfFuel -> ensures (lift o w) (fun _ w' => w' = w).
Proof.
  unfold lift, ensures. destruct o; [reflexivity | exact (fun _ => I) | congruence].
Qed.

Lemma acceptable_ensures (seg : option (list coords)) (pts : list coords)
    (threshold : number) (w : world) :
  ensures (lift (acceptable seg pts threshold) w) (fun _ w' => w' = w).
Proof. apply lift_ensures, acceptable_halts. Qed.

(** ** The two search phases, for any collaborator *)

Lemma loop_fuel_enough (k : Z) :
  k <= total_points -> (Z.to_nat k < loop_fuel)%nat.
Proof. unfold loop_fuel, total_points, Py.len. lia. Qed.

Lemma expansion_ensures (fuel : nat) (sp : coords) (a lower step : Z) (w : world) :
  0 <= a < total_points - 1 ->
  a <= lower -> lower < a + step -> lower <= total_points - 1 ->
  (Z.to_nat (total_points - (a + step)) < fuel)%nat ->
  ensures (expansion fuel sp a lower step w)
    (fun b _ => a <= fst b /\ fst b <= snd b /\ snd b <= total_points - 1 /\ a < snd b).
Proof.
  revert lower step w.
  induction fuel as [| fuel IH]; intros lower step w Ha Hl Hs Hn Hf; [lia |].
  cbn [expansion].
  destruct (Z.leb_spec total_points (a + step)) as [Hge | Hlt].
  - apply ensures_ret. simpl. lia.
  - eapply ensures_bind; [apply point_at_ensures |]. intros probe_point w1 _.
    eapply ensures_bind; [apply get_route_ensures |]. intros seg w2 _.
    eapply ensures_bind; [apply acceptable_ensures |]. intros [|] w3 _; cbn [negb].
    + apply IH; lia.
    + apply ensures_ret. simpl. lia.
Qed.

Lemma binary_search_ensures (fuel : nat) (sp : coords) (a lower upper best : Z)
    (w : world) :
  0 <= a -> a <= lower -> upper <= total_points - 1 ->
  a <= best <= total_points - 1 ->
  (Z.to_nat (upper - lower + 1) < fuel)%nat ->
  ensures (binary_search fuel sp a lower upper best w)
    (fun b _ => a <= b <= total_points - 1).
Proof.
  revert lower upper best w.
  induction fuel as [| fuel IH]; intros lower upper best w Ha Hl Hu Hb Hf; [lia |].
  cbn [binary_search].
  destruct (Z.leb_spec lower upper) as [Hle | Hgt]; [| apply ensures_ret; lia].
  destruct (Z.leb_spec ((lower + upper) / 2) a) as [Hmid | Hmid];
    [apply ensures_ret; lia |].
  assert (Hrange : lower <= (lower + upper) / 2 <= upper).
  { split; [apply Z.div_le_lower_bound | apply Z.div_le_upper_bound]; lia. }
  eapply ensures_bind; [apply point_at_ensures |]. intros candidate_point w1 _.
  eapply ensures_bind; [apply get_route_ensures |]. intros seg w2 _.
  eapply ensures_bind; [apply acceptable_ensures |]. intros [|] w3 _; apply IH; lia.
Qed.

Lemma search_ensures (sp : coords) (a : Z) (w : world) :
  0 <= a < total_points - 1 ->
  ensures (search sp a w) (fun b _ => a <= b <= total_points - 1).
Proof.
  intro Ha. unfold search.
  eapply ensures_bind.
  - apply expansion_ensures; try lia. apply loop_fuel_enough. lia.
  - intros [lo up] w1 (H1 & H2 & H3 & H4). cbn [fst snd] in *.
    apply binary_search_ensures; try lia. apply loop_fuel_enough. lia.
Qed.

(** ** The invariant of the main loop *)

(** Indices into the raw trace of the key waypoints committed so far. *)
Definition key_indices (st : loop_state) : list Z := 0 :: map fst (commits st).

Definition raw_coords (i : Z) : option coords :=
  option_map coords_of (Py.getitem raw_waypoints i).

Record invariant (st : loop_state) : Prop := {
  inv_anchor : 0 <= last_anchor_idx st <= total_points - 1;
  inv_trace_sorted : StronglySorted Z.lt (anchor_trace st);
  inv_trace_bound : Forall (fun i => i <= last_anchor_idx st) (anchor_trace st);
  inv_trace_last : last (anchor_trace st) 0 = last_anchor_idx st;
  inv_keys_sorted : StronglySorted Z.lt (key_indices st);
  inv_keys_bound : Forall (fun i => i <= last_anchor_idx st) (key_indices st);
  inv_keys_points :
    map Some (key_waypoints_coords st) = map raw_coords (key_indices st);
  inv_path :
    final_route_coords st = concat (map (fun c => removelast (snd c)) (commits st))
}.

Lemma sorted_snoc (l : list Z) (y : Z) :
  StronglySorted Z.lt l -> Forall (fun i => i < y) l ->
  StronglySorted Z.lt (l ++ [y]).
Proof.
  induction 1 as [| x l Hs IH Hx]; intro Hall; simpl.
  - constructor; constructor.
  - inversion Hall as [| ? ? Hxy Hly]; subst. constructor.
    + apply IH, Hly.
    + apply Forall_app. split; [exact Hx | constructor; [exact Hxy | constructor]].
Qed.

Lemma Forall_le_lt (l : list Z) (a y : Z) :
  Forall (fun i => i <= a) l -> a < y -> Forall (fun i => i < y) l.
Proof. intros H Hay. eapply Forall_impl; [| exact H]. simpl. intros; lia. Qed.

Lemma Forall_le_snoc (l : list Z) (a y : Z) :
  Forall (fun i => i <= a) l -> a <= y -> Forall (fun i => i <= y) (l ++ [y]).
Proof.
  intros H Hay. apply Forall_app. split.
  - eapply Forall_impl; [| exact H]. simpl. intros; lia.
  - constructor; [lia | constructor].
Qed.

(** How one pass changes the state: the single-point skip, or a commit. *)
Definition skipped (st st' : loop_state) : Prop :=
  last_anchor_idx st' = last_anchor_idx st + 1 /\
  key_waypoints_coords st' = key_waypoints_coords st /\
  final_route_coords st' = final_route_coords st /\
  commits st' = commits st.

Definition committed (st st' : loop_state) : Prop :=
  last_anchor_idx st < last_anchor_idx st' /\
  exists segment point,
    raw_coords (last_anchor_idx st') = Some point /\
    commits st' = commits st ++ [(last_anchor_idx st', segment)] /\
    key_waypoints_coords st' = key_waypoints_coords st ++ [point] /\
    final_route_coords st' = final_route_coords st ++ removelast segment.

Definition progress (st st' : loop_state) : Prop :=
  anchor_trace st' = anchor_trace st ++ [last_anchor_idx st'] /\
  (skipped st st' \/ committed st st').

Lemma commit_or_skip_ensures (st : loop_state) (sp : coords) (best : Z) (w : world) :
  invariant st ->
  last_anchor_idx st < total_points - 1 ->
  last_anchor_idx st <= best <= total_points - 1 ->
  ensures (commit_or_skip st sp best w)
    (fun st' _ => invariant st' /\ progress st st').
Proof.
  intros Inv Hlt Hbest. unfold commit_or_skip.
  destruct Inv as [Ia Its Itb Itl Iks Ikb Ikp Ip].
  destruct (Z.leb_spec best (last_anchor_idx st)) as [Hle | Hgt].
  - apply ensures_ret. split.
    + constructor; cbn; try assumption.
      * lia.
      * apply sorted_snoc; [assumption |]. eapply Forall_le_lt; [eassumption | lia].
      * eapply Forall_le_snoc; [eassumption | lia].
      * apply last_last.
      * unfold key_indices in *. cbn.
        eapply Forall_impl; [| exact Ikb]. simpl. intros; lia.
    + split; [reflexivity |]. left. repeat split.
  - destruct (point_at_in_range best w) as (wp & Hwp & Hpt); [lia |].
    erewrite bind_Returned by exact Hpt.
    eapply ensures_bind; [apply get_route_ensures |].
    intros [segment |] w1 _; [| apply ensures_raise].
    apply ensures_ret. split.
    + constructor; cbn; try assumption.
      * lia.
      * apply sorted_snoc; [assumption |]. eapply Forall_le_lt; eassumption.
      * eapply Forall_le_snoc; [eassumption | lia].
      * apply last_last.
      * unfold key_indices in *. cbn. rewrite map_app. cbn.
        change (0 :: map fst (commits st) ++ [best])
          with ((0 :: map fst (commits st)) ++ [best]).
        apply sorted_snoc; [assumption |]. eapply Forall_le_lt; eassumption.
      * unfold key_indices in *. cbn. rewrite map_app. cbn.
        change (0 :: map fst (commits st) ++ [best])
          with ((0 :: map fst (commits st)) ++ [best]).
        eapply Forall_le_snoc; [eassumption | lia].
      * unfold key_indices in *. cbn. rewrite !map_app. cbn.
        change (raw_coords 0 :: map raw_coords (map fst (commits st)) ++ [raw_coords best])
          with ((raw_coords 0 :: map raw_coords (map fst (commits st))) ++ [raw_coords best]).
        cbn in Ikp. rewrite <- Ikp. f_equal. unfold raw_coords. rewrite Hwp. reflexivity.
      * rewrite map_app, concat_app. cbn. rewrite app_nil_r. rewrite Ip. reflexivity.
    + split; [reflexivity |]. right. split; [cbn; lia |].
      exists segment, (coords_of wp). cbn. repeat split.
      unfold raw_coords. rewrite Hwp. reflexivity.
Qed.

Lemma progress_anchor (st st' : loop_state) :
  progress st st' -> last_anchor_idx st < last_anchor_idx st'.
Proof.
  intros [_ [(H & _) | (H & _)]]; lia.
Qed.

Lemma iteration_ensures (st : loop_state) (w : world) :
  invariant st ->
  last_anchor_idx st < total_points - 1 ->
  ensures (iteration st w) (fun st' _ => invariant st' /\ progress st st').
Proof.
  intros Inv Hlt. unfold iteration.
  destruct (point_at_in_range (last_anchor_idx st) w) as (wp & Hwp & Hpt).
  { destruct Inv; lia. }
  erewrite bind_Returned by exact Hpt.
  eapply ensures_bind.
  - apply search_ensures. destruct Inv; lia.
  - intros best w1 Hb. apply commit_or_skip_ensures; assumption.
Qed.

Lemma main_loop_ensures (fuel : nat) (st : loop_state) (w : world) :
  invariant st ->
  (Z.to_nat (total_points - 1 - last_anchor_idx st) < fuel)%nat ->
  ensures (main_loop fuel st w)
    (fun st' _ => invariant st' /\ last_anchor_idx st' = total_points - 1).
Proof.
  revert st w. induction fuel as [| fuel IH]; intros st w Inv Hf; [lia |].
  cbn [main_loop].
  destruct (Z.ltb_spec (last_anchor_idx st) (total_points - 1)) as [Hlt | Hge].
  - eapply ensures_bind; [apply iteration_ensures; assumption |].
    intros st' w1 [Inv' Hp]. apply progress_anchor in Hp.
    apply IH; [exact Inv' | lia].
  - apply ensures_ret. split; [exact Inv |]. destruct Inv; lia.
Qed.

Lemma run_prefix_ensures (k : nat) (st : loop_state) (w : world) :
  invariant st ->
  ensures (run_prefix k st w) (fun st' _ => invariant st').
Proof.
  revert st w. induction k as [| k IH]; intros st w Inv.
  - apply ensures_ret, Inv.
  - cbn [run_prefix].
    destruct (Z.ltb_spec (last_anchor_idx st) (total_points - 1)) as [Hlt | Hge].
    + eapply ensures_bind; [apply iteration_ensures; assumption |].
      intros st' w1 [Inv' _]. apply IH, Inv'.
    + apply ensures_ret, Inv.
Qed.

Lemma initial_invariant (wp : geopoint) :
  2 <= total_points ->
  Py.getitem raw_waypoints 0 = Some wp ->
  invariant (initial_state (coords_of wp)).
Proof.
  intros Hn H0. constructor; cbn.
  - lia.
  - repeat constructor.
  - repeat constructor. lia.
  - reflexivity.
  - repeat constructor.
  - repeat constructor. lia.
  - unfold raw_coords. rewrite H0. reflexivity.
  - reflexivity.
Qed.

(** ** The last element of a list, the Python way *)

Lemma getitem_snoc {A : Type} (l : list A) (x : A) :
  Py.getitem (l ++ [x]) (-1) = Some x.
Proof.
  unfold Py.getitem, Py.len. rewrite length_app. cbn [length].
  destruct (Z.ltb_spec (-1) 0) as [_ | H]; [| lia].
  destruct (Z.leb_spec 0 (Z.of_nat (length l + 1) + -1)) as [_ | H]; [| lia].
  replace (Z.to_nat (Z.of_nat (length l + 1) + -1)) with (length l + 0)%nat by lia.
  rewrite nth_error_app2 by lia.
  replace (length l + 0 - length l)%nat with 0%nat by lia. reflexivity.
Qed.

Lemma getitem_map {A B : Type} (f : A -> B) (l : list A) (i : Z) :
  Py.getitem (map f l) i = option_map f (Py.getitem l i).
Proof.
  unfold Py.getitem, Py.len. rewrite length_map.
  destruct (i <? 0); [destruct (0 <=? Z.of_nat (length l) + i) |];
    try reflexivity; apply nth_error_map.
Qed.


Lemma keys_nonempty (st : loop_state) :
  invariant st ->
  exists c rest, key_waypoints_coords st = c :: rest /\ Some c = raw_coords 0.
Proof.
  intros Inv. pose proof (inv_keys_points st Inv) as H. unfold key_indices in H.
  destruct (key_waypoints_coords st) as [| c rest]; [discriminate |].
  cbn in H. injection H as H _. eauto.
Qed.

Lemma getitem_last_some {A : Type} (l : list A) :
  l <> [] -> exists x, Py.getitem l (-1) = Some x.
Proof.
  intro H. destruct (exists_last H) as (l' & x & ->).
  exists x. apply getitem_snoc.
Qed.

Lemma to_dict_coords_of (wp : geopoint) : to_dict (coords_of wp) = wp.
Proof. destruct wp; reflexivity. Qed.

(** ** What a run of [clean_gps_route] returns, for any collaborator *)

(** The result assembled from the final state of the loop. *)
Definition result_of (st : loop_state) (last_key : coords) : cleaning_result :=
  let final_path := map to_dict (final_route_coords st ++ [last_key]) in
  Success (map to_dict (key_waypoints_coords st))
          final_path
          (calculate_path_distance_coords (final_route_coords st ++ [last_key]))
          0
          (Py.len (map to_dict (key_waypoints_coords st)) - 2)
          (match final_path with
           | [] => of_int 0
           | _ :: _ => f_div (of_int (Py.len raw_waypoints)) (of_int (Py.len final_path))
           end).

Lemma finish_ensures (st : loop_state) (w : world) :
  invariant st ->
  ensures (finish st w)
    (fun r _ => exists last_key,
       Py.getitem (key_waypoints_coords st) (-1) = Some last_key /\
       r = result_of st last_key).
Proof.
  intro Inv. unfold finish.
  destruct (keys_nonempty st Inv) as (c & rest & Hk & _).
  destruct (getitem_last_some (key_waypoints_coords st)) as [x Hx].
  { rewrite Hk. discriminate. }
  rewrite Hx. apply ensures_ret. exists x. split; reflexivity.
Qed.

Lemma clean_short (w : world) :
  Py.len raw_waypoints < 2 ->
  clean_gps_route w = (Returned (Failure "Need at least 2 waypoints"), w).
Proof.
  intro H. unfold clean_gps_route.
  destruct (Z.ltb_spec (Py.len raw_waypoints) 2) as [_ | H']; [reflexivity | lia].
Qed.

Lemma clean_ensures (w : world) :
  2 <= total_points ->
  ensures (clean_gps_route w)
    (fun r _ => exists st last_key,
       invariant st /\ last_anchor_idx st = total_points - 1 /\
       Py.getitem (key_waypoints_coords st) (-1) = Some last_key /\
       r = result_of st last_key).
Proof.
  intro Hn. unfold clean_gps_route.
  destruct (Z.ltb_spec (Py.len raw_waypoints) 2) as [H' | _];
    [unfold total_points in Hn; lia |].
  destruct (point_at_in_range 0 w) as (wp & Hwp & Hpt); [lia |].
  erewrite bind_Returned by exact Hpt.
  eapply ensures_bind.
  - apply main_loop_ensures.
    + apply initial_invariant; assumption.
    + cbn. apply loop_fuel_enough. lia.
  - intros st w1 [Inv Hlast].
    eapply ensures_weaken; [apply finish_ensures, Inv |].
    intros r w2 (last_key & Hk & ->). exists st, last_key. auto.
Qed.

(** A returned result is either the input error, or was assembled from
    the state in which the main loop stopped. *)
Lemma clean_inversion (w w' : world) (r : cleaning_result) :
  clean_gps_route w = (Returned r, w') ->
  (Py.len raw_waypoints < 2 /\ r = Failure "Need at least 2 waypoints" /\ w' = w) \/
  (2 <= total_points /\
   exists wp st last_key,
     Py.getitem raw_waypoints 0 = Some wp /\
     main_loop loop_fuel (initial_state (coords_of wp)) w = (Returned st, w') /\
     invariant st /\ last_anchor_idx st = total_points - 1 /\
     Py.getitem (key_waypoints_coords st) (-1) = Some last_key /\
     r = result_of st last_key).
Proof.
  unfold clean_gps_route.
  destruct (Z.ltb_spec (Py.len raw_waypoints) 2) as [Hshort | Hlong].
  - intro H. injection H as <- <-. left. auto.
  - intro H. right. split; [exact Hlong |].
    destruct (point_at_in_range 0 w) as (wp & Hwp & Hpt);
      [unfold total_points; lia |].
    erewrite bind_Returned in H by exact Hpt.
    apply bind_inv_Returned in H. destruct H as (st & w1 & Hloop & Hfin).
    assert (Inv : invariant st /\ last_anchor_idx st = total_points - 1).
    { assert (E : ensures (main_loop loop_fuel (initial_state (coords_of wp)) w)
                    (fun st' _ => invariant st' /\ last_anchor_idx st' = total_points - 1)).
      { apply main_loop_ensures.
        - apply initial_invariant; assumption.
        - cbn. apply loop_fuel_enough. unfold total_points. lia. }
      rewrite Hloop in E. exact E. }
    destruct Inv as [Inv Hlast].
    unfold finish in Hfin.
    destruct (Py.getitem (key_waypoints_coords st) (-1)) as [last_key |] eqn:Hk;
      [| discriminate].
    injection Hfin as <- <-.
    exists wp, st, last_key. auto 10.
Qed.

(** ** Theorems about any collaborator *)

(** C2: for a trace of fewer than two points [clean_gps_route] returns
    [{success: False, error: "Need at least 2 waypoints"}] at once; the
    collaborator is not called: its state and the log of calls are the
    ones the run started with. *)
Theorem clean_rejects_short_trace (w : world) :
  Py.len raw_waypoints < 2 ->
  clean_gps_route w = (Returned (Failure "Need at least 2 waypoints"), w) /\
  calls (snd (clean_gps_route w)) = calls w /\
  collaborator (snd (clean_gps_route w)) = collaborator w.
Proof.
  intro H. rewrite (clean_short w H). auto.
Qed.

(** C3, as amended: in every successful result [reroute_count] is
    [len(waypoints) - 2].  The value is not clamped: it is never below
    -1, and it is -1 when no segment was committed, in which case both
    [waypoints] and [path] consist of the first raw point alone. *)
Theorem reroute_count_is_unclamped (w w' : world) (r : cleaning_result) :
  clean_gps_route w = (Returned r, w') ->
  success r = true ->
  exists kw path distance duration rc ratio,
    r = Success kw path distance duration rc ratio /\
    rc = Py.len kw - 2 /\
    -1 <= rc /\
    (rc = -1 -> path = kw /\ map Some kw = [Py.getitem raw_waypoints 0]).
Proof.
  intros Hrun Hs. apply clean_inversion in Hrun.
  destruct Hrun as [(_ & -> & _) | (Hn & wp & st & last_key & H0 & _ & Inv & _ & Hk & ->)];
    [discriminate |].
  unfold result_of. do 6 eexists. split; [reflexivity |]. split; [reflexivity |].
  pose proof (inv_keys_points st Inv) as Hkp.
  pose proof (inv_path st Inv) as Hp.
  assert (Hlen : Py.len (map to_dict (key_waypoints_coords st))
                 = 1 + Z.of_nat (length (commits st))).
  { unfold Py.len. rewrite length_map.
    apply (f_equal (@length _)) in Hkp. unfold key_indices in Hkp.
    rewrite !length_map in Hkp. cbn [length] in Hkp. rewrite length_map in Hkp. lia. }
  split; [lia |].
  intro Hrc. assert (Hc : commits st = []).
  { destruct (commits st); [reflexivity | cbn [length] in Hlen; lia]. }
  unfold key_indices in Hkp. rewrite Hc in Hkp, Hp. cbn in Hkp, Hp.
  destruct (key_waypoints_coords st) as [| c [| c' rest]]; try discriminate.
  cbn in Hkp. injection Hkp as Hc0.
  change [c] with ([] ++ [c]) in Hk. rewrite getitem_snoc in Hk. injection Hk as <-.
  unfold raw_coords in Hc0. rewrite H0 in Hc0. cbn in Hc0. injection Hc0 as ->.
  rewrite Hp, H0. cbn [map app]. rewrite to_dict_coords_of. split; reflexivity.
Qed.

(** C4: in every state a run goes through, the values taken by the
    anchor form a strictly increasing sequence (so the anchor never
    returns to a lower index), and the raw-trace indices of the key
    waypoints committed so far are strictly increasing and start with
    index 0. *)
Theorem anchor_and_key_indices_increase (k : nat) (wp : geopoint)
    (w w' : world) (st : loop_state) :
  2 <= total_points ->
  Py.getitem raw_waypoints 0 = Some wp ->
  run_prefix k (initial_state (coords_of wp)) w = (Returned st, w') ->
  StronglySorted Z.lt (anchor_trace st) /\
  last (anchor_trace st) 0 = last_anchor_idx st /\
  StronglySorted Z.lt (key_indices st) /\
  hd_error (key_indices st) = Some 0 /\
  map Some (key_waypoints_coords st) = map raw_coords (key_indices st).
Proof.
  intros Hn H0 Hrun.
  assert (Inv : invariant st).
  { assert (E : ensures (run_prefix k (initial_state (coords_of wp)) w)
                  (fun st' _ => invariant st')).
    { apply run_prefix_ensures, initial_invariant; assumption. }
    rewrite Hrun in E. exact E. }
  destruct Inv. auto.
Qed.

(** ** The segments a run commits *)

(** [segments_from a w segs w']: the passes of the main loop that start
    with the anchor at [a] and the collaborator and log as in [w] leave
    them as in [w'] when the loop ends, and [segs] lists, for every pass
    that committed, the index it committed and the polyline that the
    routing call of line 86 returned for it. *)
Inductive segments_from (a : Z) (w : world) : list (Z * list coords) -> world -> Prop :=
| segments_end :
    total_points - 1 <= a ->
    segments_from a w [] w
| segments_skip (wa : geopoint) (best : Z) (w1 w' : world) (segs : list (Z * list coords)) :
    a < total_points - 1 ->
    Py.getitem raw_waypoints a = Some wa ->
    search (coords_of wa) a w = (Returned best, w1) ->
    best <= a ->
    segments_from (a + 1) w1 segs w' ->
    segments_from a w segs w'
| segments_commit (wa wb : geopoint) (best : Z) (w1 w2 w' : world)
    (segment : list coords) (segs : list (Z * list coords)) :
    a < total_points - 1 ->
    Py.getitem raw_waypoints a = Some wa ->
    search (coords_of wa) a w = (Returned best, w1) ->
    a < best ->
    Py.getitem raw_waypoints best = Some wb ->
    get_route_via_forward_routing router_type [coords_of wa; coords_of wb]
      false trip_type w1 = (Returned (Some segment), w2) ->
    segments_from best w2 segs w' ->
    segments_from a w ((best, segment) :: segs) w'.

Lemma iteration_inversion (st st1 : loop_state) (w w1 : world) :
  iteration st w = (Returned st1, w1) ->
  exists wa best w0,
    Py.getitem raw_waypoints (last_anchor_idx st) = Some wa /\
    search (coords_of wa) (last_anchor_idx st) w = (Returned best, w0) /\
    ((best <= last_anchor_idx st /\ w1 = w0 /\
      last_anchor_idx st1 = last_anchor_idx st + 1 /\
      key_waypoints_coords st1 = key_waypoints_coords st /\
      final_route_coords st1 = final_route_coords st)
     \/
     (last_anchor_idx st < best /\
      exists wb segment,
        Py.getitem raw_waypoints best = Some wb /\
        get_route_via_forward_routing router_type [coords_of wa; coords_of wb]
          false trip_type w0 = (Returned (Some segment), w1) /\
        last_anchor_idx st1 = best /\
        key_waypoints_coords st1 = key_waypoints_coords st ++ [coords_of wb] /\
        final_route_coords st1 = final_route_coords st ++ removelast segment)).
Proof.
  unfold iteration, point_at.
  destruct (Py.getitem raw_waypoints (last_anchor_idx st)) as [wa |] eqn:Hwa;
    [| discriminate].
  unfold bind at 1. cbn [ret]. intro H.
  apply bind_inv_Returned in H. destruct H as (best & w0 & Hsearch & Hcommit).
  exists wa, best, w0. split; [reflexivity |]. split; [exact Hsearch |].
  unfold commit_or_skip in Hcommit.
  destruct (Z.leb_spec best (last_anchor_idx st)) as [Hle | Hgt].
  - injection Hcommit as <- <-. left. cbn. auto.
  - right. split; [exact Hgt |]. unfold point_at in Hcommit.
    destruct (Py.getitem raw_waypoints best) as [wb |] eqn:Hwb; [| discriminate].
    unfold bind at 1 in Hcommit. cbn [ret] in Hcommit.
    apply bind_inv_Returned in Hcommit.
    destruct Hcommit as ([segment |] & w2 & Hroute & Hret); [| discriminate].
    injection Hret as <- <-. exists wb, segment. cbn. auto.
Qed.

Lemma main_loop_segments (fuel : nat) (st st' : loop_state) (w w' : world) :
  main_loop fuel st w = (Returned st', w') ->
  exists segs,
    segments_from (last_anchor_idx st) w segs w' /\
    map Some (map to_dict (key_waypoints_coords st'))
    = map Some (map to_dict (key_waypoints_coords st))
      ++ map (fun s => Py.getitem raw_waypoints (fst s)) segs /\
    final_route_coords st'
    = final_route_coords st ++ concat (map (fun s => removelast (snd s)) segs).
Proof.
  revert st w. induction fuel as [| fuel IH]; intros st w H; [discriminate |].
  cbn [main_loop] in H.
  destruct (Z.ltb_spec (last_anchor_idx st) (total_points - 1)) as [Hlt | Hge].
  - apply bind_inv_Returned in H. destruct H as (st1 & w1 & Hit & Hloop).
    destruct (IH st1 w1 Hloop) as (segs & Hsegs & Hkeys & Hpath).
    apply iteration_inversion in Hit.
    destruct Hit as (wa & best & w0 & Hwa & Hsearch &
                     [(Hle & -> & Ha1 & Hk1 & Hp1)
                     | (Hgt & wb & segment & Hwb & Hroute & Ha1 & Hk1 & Hp1)]).
    + exists segs. rewrite Ha1 in Hsegs. rewrite Hk1 in Hkeys. rewrite Hp1 in Hpath.
      split; [| split; assumption].
      exact (segments_skip _ _ wa best w0 w' segs Hlt Hwa Hsearch Hle Hsegs).
    + exists ((best, segment) :: segs). rewrite Ha1 in Hsegs.
      split; [exact (segments_commit _ _ wa wb best w0 w1 w' segment segs
                       Hlt Hwa Hsearch Hgt Hwb Hroute Hsegs) |].
      split.
      * rewrite Hkeys, Hk1, !map_app. cbn [map fst].
        rewrite to_dict_coords_of, Hwb, <- app_assoc. reflexivity.
      * rewrite Hpath, Hp1. cbn [map concat snd]. rewrite <- app_assoc. reflexivity.
  - injection H as <- <-. exists []. split; [apply segments_end; lia |].
    cbn. rewrite !app_nil_r. auto.
Qed.

(** C8: in every successful result, [path] is the concatenation of the
    polylines that the routing calls returned for the committed segments,
    in the order of the run, each without its last point, followed by
    the last key waypoint; [waypoints] are the first raw point and the
    raw points at the committed indices. *)
Theorem path_is_concatenation_of_segments (w w' : world)
    (kw path : list geopoint) (distance ratio : number) (duration rc : Z) :
  clean_gps_route w = (Returned (Success kw path distance duration rc ratio), w') ->
  exists segs last_key,
    segments_from 0 w segs w' /\
    map Some kw
    = Py.getitem raw_waypoints 0
      :: map (fun s => Py.getitem raw_waypoints (fst s)) segs /\
    Py.getitem kw (-1) = Some last_key /\
    path = map to_dict (concat (map (fun s => removelast (snd s)) segs))
           ++ [last_key].
Proof.
  intro Hrun. apply clean_inversion in Hrun.
  destruct Hrun as [(_ & H & _) | (Hn & wp & st & last_key & H0 & Hloop & Inv & _ & Hk & H)];
    [discriminate |].
  unfold result_of in H. injection H as -> -> _ _ _ _.
  destruct (main_loop_segments _ _ _ _ _ Hloop) as (segs & Hsegs & Hkeys & Hpath).
  cbn [initial_state last_anchor_idx key_waypoints_coords final_route_coords] in *.
  exists segs, (to_dict last_key). split; [exact Hsegs |]. split; [| split].
  - rewrite Hkeys. cbn [map app]. rewrite to_dict_coords_of, H0. reflexivity.
  - rewrite getitem_map, Hk. reflexivity.
  - rewrite Hpath. cbn [app]. rewrite map_app. reflexivity.
Qed.

(** ** A collaborator that answers a query always the same way *)

Lemma bind_lift_Returned {A B : Type} (o : outcome A) (k : A -> M B) (w : world) (a : A) :
  o = Returned a -> bind (lift o) k w = k a w.
Proof. intros ->. reflexivity. Qed.

Section Deterministic.

(** The answer to a query, whatever the state of the collaborator. *)
Variable respond : string -> string -> string -> response.

(** What the routing client then returns for a list of waypoints. *)
Definition route_of (wps : list coords) : option (list coords) :=
  match decode_response false
          (respond (router_path_of router_type wps) trip_type
                   (options_of router_type wps)) with
  | Returned r => r
  | _ => None
  end.

(** [verdict a j]: what the test of lines 55 and 74 makes of the route
    from raw point [a] to raw point [j]. *)
Definition verdict (a j : Z) : outcome bool :=
  match raw_coords a, raw_coords j with
  | Some pa, Some pj =>
      acceptable (route_of [pa; pj]) (intermediate (a + 1) j) deviation_threshold
  | _, _ => Raised IndexError
  end.

(** [valid a j]: the route from raw point [a] to raw point [j] passes
    the test of lines 55 and 74 (it is not empty, and the raw points
    strictly between the two are within the threshold). *)
Definition valid (a j : Z) : bool :=
  match verdict a j with
  | Returned ok => ok
  | _ => false
  end.

(** The validator is an oracle from anchor [a]: it gives a verdict, and
    does not raise, on the route to every later raw point. *)
Definition oracle_from (a : Z) : Prop :=
  forall j, a < j <= total_points - 1 -> exists ok, verdict a j = Returned ok.

(** Validity from anchor [a] is monotone in the probe index. *)
Definition monotone_from (a : Z) : Prop :=
  forall i j, a < i -> i < j -> j <= total_points - 1 ->
              valid a j = true -> valid a i = true.

(** No single-point skip is needed anywhere. *)
Definition consecutive_routable : Prop :=
  forall i, 0 <= i < total_points - 1 -> valid i (i + 1) = true.

Hypothesis respond_deterministic :
  forall p t o s, fst (forwardRouting p t o s) = respond p t o.

Hypothesis respond_answers :
  forall p t o, exists r, decode_response false (respond p t o) = Returned r.

Lemma get_route_det (wps : list coords) (w : world) :
  exists w',
    get_route_via_forward_routing router_type wps false trip_type w
    = (Returned (route_of wps), w').
Proof.
  rewrite get_route_unfold. unfold transport. rewrite respond_deterministic.
  unfold route_of.
  destruct (respond_answers (router_path_of router_type wps) trip_type
              (options_of router_type wps)) as [r Hr].
  rewrite Hr. eexists. reflexivity.
Qed.

Lemma valid_verdict (a j : Z) : valid a j = true -> verdict a j = Returned true.
Proof.
  unfold valid. destruct (verdict a j) as [[|] | e |]; congruence.
Qed.

Lemma acceptable_valid (a j : Z) (wa wj : geopoint) :
  Py.getitem raw_waypoints a = Some wa ->
  Py.getitem raw_waypoints j = Some wj ->
  (exists ok, verdict a j = Returned ok) ->
  acceptable (route_of [coords_of wa; coords_of wj]) (intermediate (a + 1) j)
    deviation_threshold = Returned (valid a j).
Proof.
  intros Ha Hj [ok Hok]. unfold valid. rewrite Hok.
  unfold verdict, raw_coords in Hok. rewrite Ha, Hj in Hok. exact Hok.
Qed.

(** The validator is an oracle when no route the collaborator answers
    consists of a single point. *)
Lemma lines_give_oracle :
  (forall wps r, route_of wps = Some r -> length r <> 1%nat) ->
  forall a, 0 <= a -> oracle_from a.
Proof.
  intros Hlines a Ha j Hj. unfold verdict, raw_coords.
  destruct (getitem_in_range raw_waypoints a) as [wa Hwa]; [fold total_points; lia |].
  destruct (getitem_in_range raw_waypoints j) as [wj Hwj]; [fold total_points; lia |].
  rewrite Hwa, Hwj. cbn [option_map].
  destruct (route_of [coords_of wa; coords_of wj]) as [[| c [| c' l]] |] eqn:Hr;
    cbn [acceptable]; eauto.
  - exfalso. apply (Hlines _ _ Hr). reflexivity.
  - rewrite validate_segment_line. eauto.
Qed.

Lemma expansion_det (fuel : nat) (a lower step : Z) (wa : geopoint) (w : world) :
  Py.getitem raw_waypoints a = Some wa ->
  oracle_from a ->
  0 <= a < total_points - 1 ->
  a <= lower -> lower < a + step -> lower <= total_points - 1 ->
  (Z.to_nat (total_points - (a + step)) < fuel)%nat ->
  (lower = a \/ valid a lower = true) ->
  (lower = a -> step = 1) ->
  exists lo up w',
    expansion fuel (coords_of wa) a lower step w = (Returned (lo, up), w') /\
    a <= lo <= up /\ up <= total_points - 1 /\ a < up /\
    (lo = a \/ valid a lo = true) /\
    (lo = a -> valid a (a + 1) = false) /\
    (up = total_points - 1 \/ valid a up = false).
Proof.
  intros Hwa Horacle. revert lower step w.
  induction fuel as [| fuel IH]; intros lower step w Ha Hl Hs Hn Hf Hv H1; [lia |].
  cbn [expansion].
  destruct (Z.leb_spec total_points (a + step)) as [Hge | Hlt].
  - exists lower, (total_points - 1), w. split; [reflexivity |].
    repeat split; try lia; auto.
  - destruct (point_at_in_range (a + step) w) as (wj & Hwj & Hpt); [lia |].
    erewrite bind_Returned by exact Hpt.
    destruct (get_route_det [coords_of wa; coords_of wj] w) as [w1 Hroute].
    erewrite bind_Returned by exact Hroute.
    erewrite bind_lift_Returned
      by (apply (acceptable_valid a (a + step) wa wj Hwa Hwj), Horacle; lia).
    destruct (valid a (a + step)) eqn:Hvalid; cbn [negb].
    + destruct (IH (a + step) (step * 2) w1) as (lo & up & w' & E & P); try lia; auto.
      exists lo, up, w'. split; [exact E | exact P].
    + exists lower, (a + step), w1. split; [reflexivity |].
      repeat split; try lia; auto.
      intro E. rewrite <- (H1 E). exact Hvalid.
Qed.

Lemma binary_search_det (fuel : nat) (a lower upper best : Z) (wa : geopoint)
    (w : world) :
  Py.getitem raw_waypoints a = Some wa ->
  oracle_from a ->
  0 <= a -> a <= lower -> upper <= total_points - 1 ->
  a <= best <= total_points - 1 ->
  (Z.to_nat (upper - lower + 1) < fuel)%nat ->
  (best = a \/ valid a best = true) ->
  (best = lower \/ best = lower - 1) ->
  exists b w',
    binary_search fuel (coords_of wa) a lower upper best w = (Returned b, w') /\
    best <= b <= total_points - 1 /\
    (b = a \/ valid a b = true) /\
    (monotone_from a ->
     (forall j, upper < j <= total_points - 1 -> valid a j = false) ->
     (best = a -> valid a (a + 1) = false) ->
     forall j, b < j <= total_points - 1 -> valid a j = false).
Proof.
  intros Hwa Horacle. revert lower upper best w.
  induction fuel as [| fuel IH]; intros lower upper best w Ha Hl Hu Hb Hf Hv Hbl; [lia |].
  cbn [binary_search].
  destruct (Z.leb_spec lower upper) as [Hle | Hgt].
  2: { exists best, w. split; [reflexivity |]. repeat split; try lia; auto.
       intros _ Hup _ j Hj. apply Hup. lia. }
  assert (Hrange : lower <= (lower + upper) / 2 <= upper).
  { split; [apply Z.div_le_lower_bound | apply Z.div_le_upper_bound]; lia. }
  destruct (Z.leb_spec ((lower + upper) / 2) a) as [Hmid | Hmid].
  { exists best, w. split; [reflexivity |]. repeat split; try lia; auto.
    intros Hmono _ Hfirst j Hj.
    assert (Hba : best = a) by lia. specialize (Hfirst Hba).
    destruct (Z.eq_dec j (a + 1)) as [-> | Hne]; [exact Hfirst |].
    destruct (valid a j) eqn:Hvj; [| reflexivity].
    rewrite (Hmono (a + 1) j) in Hfirst; [discriminate | lia | lia | lia | exact Hvj]. }
  set (mid := (lower + upper) / 2) in *.
  destruct (point_at_in_range mid w) as (wj & Hwj & Hpt); [lia |].
  erewrite bind_Returned by exact Hpt.
  destruct (get_route_det [coords_of wa; coords_of wj] w) as [w1 Hroute].
  erewrite bind_Returned by exact Hroute.
  erewrite bind_lift_Returned
    by (apply (acceptable_valid a mid wa wj Hwa Hwj), Horacle; lia).
  destruct (valid a mid) eqn:Hvalid.
  - destruct (IH (mid + 1) upper mid w1) as (b & w' & E & Hbb & Hvb & Hmax);
      try lia; auto.
    exists b, w'. split; [exact E |]. split; [lia |]. split; [exact Hvb |].
    intros Hmono Hup _. apply Hmax; [exact Hmono | exact Hup | intro; lia].
  - destruct (IH lower (mid - 1) best w1) as (b & w' & E & Hbb & Hvb & Hmax);
      try lia; auto.
    exists b, w'. split; [exact E |]. split; [lia |]. split; [exact Hvb |].
    intros Hmono _ Hfirst. apply Hmax; [exact Hmono | | exact Hfirst].
    intros j Hj. destruct (Z.eq_dec j mid) as [-> | Hne]; [exact Hvalid |].
    destruct (valid a j) eqn:Hvj; [| reflexivity].
    rewrite (Hmono mid j) in Hvalid; [discriminate | lia | lia | lia | exact Hvj].
Qed.

Lemma search_det (a : Z) (wa : geopoint) (w : world) :
  Py.getitem raw_waypoints a = Some wa ->
  oracle_from a ->
  0 <= a < total_points - 1 ->
  exists b w',
    search (coords_of wa) a w = (Returned b, w') /\
    a <= b <= total_points - 1 /\
    (b = a \/ valid a b = true) /\
    (valid a (a + 1) = true -> a < b) /\
    (monotone_from a -> forall j, b < j <= total_points - 1 -> valid a j = false).
Proof.
  intros Hwa Horacle Ha. unfold search.
  destruct (expansion_det loop_fuel a a 1 wa w) as
    (lo & up & w1 & E1 & Hlo & Hup & Haup & Hvlo & Hfirst & Hvup);
    try lia; auto.
  { apply loop_fuel_enough. lia. }
  erewrite bind_Returned by exact E1. cbn [fst snd].
  destruct (binary_search_det loop_fuel a lo up lo wa w1) as
    (b & w' & E2 & Hb & Hvb & Hmax); try lia; auto.
  { apply loop_fuel_enough. lia. }
  exists b, w'. split; [exact E2 |]. split; [lia |]. split; [exact Hvb |]. split.
  - intro Hv. destruct (Z.eq_dec lo a) as [E | E]; [| lia].
    rewrite (Hfirst E) in Hv. discriminate.
  - intros Hmono. apply Hmax; [exact Hmono | | exact Hfirst].
    intros j Hj. destruct Hvup as [-> | Hvup]; [lia |].
    destruct (valid a j) eqn:Hvj; [| reflexivity].
    rewrite (Hmono up j) in Hvup; [discriminate | lia | lia | lia | exact Hvj].
Qed.

Lemma acceptable_not_empty (seg : option (list coords)) (pts : list coords)
    (t : number) :
  acceptable seg pts t = Returned true -> exists p l, seg = Some (p :: l).
Proof.
  destruct seg as [[| p l] |]; simpl; try discriminate. eauto.
Qed.

Lemma iteration_det (st : loop_state) (w : world) :
  invariant st ->
  last_anchor_idx st < total_points - 1 ->
  oracle_from (last_anchor_idx st) ->
  exists st' w',
    iteration st w = (Returned st', w') /\
    invariant st' /\
    anchor_trace st' = anchor_trace st ++ [last_anchor_idx st'] /\
    ((skipped st st' /\
      valid (last_anchor_idx st) (last_anchor_idx st + 1) = false /\
      (monotone_from (last_anchor_idx st) ->
       forall j, last_anchor_idx st < j <= total_points - 1 ->
                 valid (last_anchor_idx st) j = false))
     \/
     (committed st st' /\
      valid (last_anchor_idx st) (last_anchor_idx st') = true /\
      (monotone_from (last_anchor_idx st) ->
       forall j, last_anchor_idx st' < j <= total_points - 1 ->
                 valid (last_anchor_idx st) j = false))).
Proof.
  intros Inv Hlt Horacle.
  pose proof (inv_anchor st Inv) as Ha.
  assert (E : ensures (iteration st w) (fun st' _ => invariant st' /\ progress st st'))
    by (apply iteration_ensures; assumption).
  unfold iteration in *.
  destruct (point_at_in_range (last_anchor_idx st) w) as (wa & Hwa & Hpt); [lia |].
  erewrite bind_Returned in E by exact Hpt. erewrite bind_Returned by exact Hpt.
  destruct (search_det (last_anchor_idx st) wa w Hwa Horacle) as
    (b & w1 & Hsearch & Hb & Hvb & Hfirst & Hmax); [lia |].
  erewrite bind_Returned in E by exact Hsearch.
  erewrite bind_Returned by exact Hsearch.
  unfold commit_or_skip in *.
  destruct (Z.leb_spec b (last_anchor_idx st)) as [Hle | Hgt].
  - cbn in E. destruct E as [Inv' [Htrace _]].
    eexists _, w1. split; [reflexivity |]. split; [exact Inv' |].
    split; [exact Htrace |]. left.
    assert (Hba : b = last_anchor_idx st) by lia.
    split; [repeat split |]. split.
    + destruct (valid (last_anchor_idx st) (last_anchor_idx st + 1)); [| reflexivity].
      specialize (Hfirst eq_refl). lia.
    + intros Hmono j Hj. apply Hmax; [exact Hmono | lia].
  - destruct Hvb as [Hvb | Hvb]; [lia |].
    destruct (point_at_in_range b w1) as (wb & Hwb & Hptb); [lia |].
    erewrite bind_Returned in E by exact Hptb. erewrite bind_Returned by exact Hptb.
    destruct (get_route_det [coords_of wa; coords_of wb] w1) as [w2 Hroute].
    erewrite bind_Returned in E by exact Hroute.
    erewrite bind_Returned by exact Hroute.
    pose proof (valid_verdict _ _ Hvb) as Hacc.
    unfold verdict, raw_coords in Hacc. rewrite Hwa, Hwb in Hacc. cbn in Hacc.
    apply acceptable_not_empty in Hacc. destruct Hacc as (p & l & Hseg).
    rewrite Hseg in *. cbn in E. destruct E as [Inv' [Htrace _]].
    eexists _, w2. split; [reflexivity |]. split; [exact Inv' |].
    split; [exact Htrace |]. right. cbn [last_anchor_idx]. split.
    + split; [cbn; lia |]. exists (p :: l), (coords_of wb). cbn.
      unfold raw_coords. rewrite Hwb. repeat split.
    + split; [exact Hvb | exact Hmax].
Qed.



(** ** Theorems about a deterministic collaborator *)


(** C5: when the validator is an oracle from the current anchor and
    validity is monotone in the probe index, one pass of the main loop
    commits the largest index whose segment from the anchor is valid; it
    takes the single-point skip (the only case in which the
    [mid_idx <= last_anchor_idx] exit is reached) only when no index
    beyond the anchor is valid. *)
Theorem search_commits_maximal_index (k : nat) (wp : geopoint)
    (w0 w : world) (st : loop_state) :
  2 <= total_points ->
  Py.getitem raw_waypoints 0 = Some wp ->
  run_prefix k (initial_state (coords_of wp)) w0 = (Returned st, w) ->
  last_anchor_idx st < total_points - 1 ->
  oracle_from (last_anchor_idx st) ->
  monotone_from (last_anchor_idx st) ->
  exists st' w',
    iteration st w = (Returned st', w') /\
    ((skipped st st' /\
      forall j, last_anchor_idx st < j <= total_points - 1 ->
                valid (last_anchor_idx st) j = false)
     \/
     (committed st st' /\
      valid (last_anchor_idx st) (last_anchor_idx st') = true /\
      forall j, last_anchor_idx st' < j <= total_points - 1 ->
                valid (last_anchor_idx st) j = false)).
Proof.
  intros Hn H0 Hrun Hlt Horacle Hmono.
  assert (Inv : invariant st).
  { assert (E : ensures (run_prefix k (initial_state (coords_of wp)) w0)
                  (fun st' _ => invariant st')).
    { apply run_prefix_ensures, initial_invariant; assumption. }
    rewrite Hrun in E. exact E. }
  destruct (iteration_det st w Inv Hlt Horacle) as (st' & w' & Hit & _ & _ & Hstep).
  exists st', w'. split; [exact Hit |].
  destruct Hstep as [(Hs & _ & Hmax) | (Hc & Hv & Hmax)]; [left | right]; auto.
Qed.

End Deterministic.

(** ** Runs seen as a prefix followed by the rest of the loop *)

Lemma bind_ext {A B : Type} (c : M A) (k1 k2 : A -> M B) (w : world) :
  (forall a w1, k1 a w1 = k2 a w1) -> bind c k1 w = bind c k2 w.
Proof.
  intro H. unfold bind. destruct (c w) as [[a | e |] w1]; auto.
Qed.

Lemma bind_assoc {A B C : Type} (c : M A) (k : A -> M B) (k' : B -> M C) (w : world) :
  bind (bind c k) k' w = bind c (fun a => bind (k a) k') w.
Proof.
  unfold bind. destruct (c w) as [[a | e |] w1]; reflexivity.
Qed.

Lemma main_loop_split (k fuel : nat) (st : loop_state) (w : world) :
  main_loop (k + S fuel) st w
  = bind (run_prefix k st) (main_loop (S fuel)) w.
Proof.
  revert st w. induction k as [| k IH]; intros st w.
  - reflexivity.
  - cbn [Nat.add main_loop run_prefix].
    destruct (last_anchor_idx st <? total_points - 1) eqn:Hguard.
    + rewrite bind_assoc. apply bind_ext. intros st1 w1. apply IH.
    + unfold bind, ret. cbn [main_loop]. rewrite Hguard. reflexivity.
Qed.

Lemma main_loop_more_fuel (fuel extra : nat) (st : loop_state) (w : world) :
  fst (main_loop fuel st w) <> OutOfFuel ->
  main_loop (fuel + extra) st w = main_loop fuel st w.
Proof.
  revert st w. induction fuel as [| fuel IH]; intros st w H.
  - cbn in H. congruence.
  - cbn [Nat.add main_loop] in *.
    destruct (last_anchor_idx st <? total_points - 1); [| reflexivity].
    unfold bind in *. destruct (iteration st w) as [[st1 | e |] w1]; auto.
Qed.

Lemma clean_main_loop_halts (wp : geopoint) (w : world) :
  2 <= total_points ->
  Py.getitem raw_waypoints 0 = Some wp ->
  fst (main_loop loop_fuel (initial_state (coords_of wp)) w) <> OutOfFuel.
Proof.
  intros Hn H0.
  assert (E : ensures (main_loop loop_fuel (initial_state (coords_of wp)) w)
                (fun st' _ => invariant st' /\ last_anchor_idx st' = total_points - 1)).
  { apply main_loop_ensures.
    - apply initial_invariant; assumption.
    - cbn. apply loop_fuel_enough. lia. }
  destruct (main_loop loop_fuel (initial_state (coords_of wp)) w) as [[st | e |] w1];
    cbn in *; [discriminate | discriminate | contradiction].
Qed.

(** The model never runs out of fuel: a run of [clean_gps_route] ends, by
    returning or by raising, whatever the collaborator answers. *)
Lemma clean_gps_route_halts (w : world) :
  fst (clean_gps_route w) <> OutOfFuel.
Proof.
  destruct (Z.ltb_spec (Py.len raw_waypoints) 2) as [Hshort | Hlong].
  - rewrite (clean_short w Hshort). discriminate.
  - assert (E := clean_ensures w Hlong).
    destruct (clean_gps_route w) as [[r | e |] w1];
      cbn in *; [discriminate | discriminate | contradiction].
Qed.

(** C10: when the routing call that line 86 issues again for the
    segment chosen by the search returns [None], [clean_gps_route]
    raises the [TypeError] of subscripting [None] and returns no
    result.  [st] is any state the run reaches, [best] the index the
    search settles on from it. *)
Theorem commit_raises_when_route_is_not_repeated (k : nat) (wp wa wb : geopoint)
    (w0 w1 w2 w3 : world) (st : loop_state) (best : Z) :
  2 <= total_points ->
  Py.getitem raw_waypoints 0 = Some wp ->
  run_prefix k (initial_state (coords_of wp)) w0 = (Returned st, w1) ->
  last_anchor_idx st < total_points - 1 ->
  Py.getitem raw_waypoints (last_anchor_idx st) = Some wa ->
  search (coords_of wa) (last_anchor_idx st) w1 = (Returned best, w2) ->
  last_anchor_idx st < best ->
  Py.getitem raw_waypoints best = Some wb ->
  get_route_via_forward_routing router_type [coords_of wa; coords_of wb]
    false trip_type w2 = (Returned None, w3) ->
  clean_gps_route w0
  = (Raised (TypeError "'NoneType' object is not subscriptable"), w3).
Proof.
  intros Hn H0 Hrun Hlt Hwa Hsearch Hbest Hwb Hroute.
  assert (Hit : iteration st w1
                = (Raised (TypeError "'NoneType' object is not subscriptable"), w3)).
  { unfold iteration, point_at. rewrite Hwa.
    unfold bind at 1. cbn [ret]. erewrite bind_Returned by exact Hsearch.
    unfold commit_or_skip.
    destruct (Z.leb_spec best (last_anchor_idx st)) as [Hle | _]; [lia |].
    unfold point_at. rewrite Hwb. unfold bind at 1. cbn [ret].
    erewrite bind_Returned by exact Hroute. reflexivity. }
  assert (Hloop : main_loop loop_fuel (initial_state (coords_of wp)) w0
                  = (Raised (TypeError "'NoneType' object is not subscriptable"), w3)).
  { rewrite <- (main_loop_more_fuel loop_fuel (S k))
      by (apply clean_main_loop_halts; assumption).
    replace (loop_fuel + S k)%nat with (k + S loop_fuel)%nat by lia.
    rewrite main_loop_split. erewrite bind_Returned by exact Hrun.
    cbn [main_loop].
    destruct (Z.ltb_spec (last_anchor_idx st) (total_points - 1)) as [_ | Hge]; [| lia].
    erewrite bind_Raised by exact Hit. reflexivity. }
  unfold clean_gps_route.
  destruct (Z.ltb_spec (Py.len raw_waypoints) 2) as [Hshort | _];
    [unfold total_points in Hn; lia |].
  unfold point_at. rewrite H0. unfold bind at 1. cbn [ret].
  erewrite bind_Raised by exact Hloop. reflexivity.
Qed.

(** ** The routing calls of a run *)

(** A logged call that asks for the route from one raw point to a later
    one, for the trip type of the run. *)
Definition pair_query (q : string * string * string) : Prop :=
  exists a j wa wj,
    0 <= a /\ a < j /\ j <= total_points - 1 /\
    Py.getitem raw_waypoints a = Some wa /\
    Py.getitem raw_waypoints j = Some wj /\
    q = (router_path_of router_type [coords_of wa; coords_of wj],
         trip_type,
         options_of router_type [coords_of wa; coords_of wj]).

(** [logs r w k]: the call that started in state [w] and ended as [r]
    (returning, raising or out of fuel) kept the log it found and added
    at most [k] calls to it, each a [pair_query]. *)
Definition logs {A : Type} (r : outcome A * world) (w : world) (k : nat) : Prop :=
  exists new,
    calls (snd r) = calls w ++ new /\
    (length new <= k)%nat /\
    Forall pair_query new.

Lemma logs_here {A : Type} (o : outcome A) (w : world) (k : nat) :
  logs (o, w) w k.
Proof.
  exists []. cbn. rewrite app_nil_r. repeat split; [lia | constructor].
Qed.

Lemma logs_weaken {A : Type} (r : outcome A * world) (w : world) (k k' : nat) :
  logs r w k -> (k <= k')%nat -> logs r w k'.
Proof.
  intros (new & H1 & H2 & H3) Hk. exists new. repeat split; [assumption | lia | assumption].
Qed.

Lemma logs_bind {A B : Type} (c : M A) (k : A -> M B) (w : world) (n1 n2 : nat) :
  logs (c w) w n1 ->
  (forall a w1, c w = (Returned a, w1) -> logs (k a w1) w1 n2) ->
  logs (bind c k w) w (n1 + n2).
Proof.
  intros (new1 & H1 & L1 & P1) Hk. unfold bind.
  destruct (c w) as [[a | e |] w1] eqn:E; cbn [snd] in H1.
  - destruct (Hk a w1 eq_refl) as (new2 & H2 & L2 & P2).
    exists (new1 ++ new2). rewrite H2, H1, app_assoc. repeat split.
    + rewrite length_app. lia.
    + apply Forall_app. split; assumption.
  - exists new1. repeat split; [assumption | lia | assumption].
  - exists new1. repeat split; [assumption | lia | assumption].
Qed.

Lemma logs_lift {A B : Type} (o : outcome A) (k : A -> M B) (w : world) (n : nat) :
  (forall a, logs (k a w) w n) -> logs (bind (lift o) k w) w n.
Proof.
  intro H. unfold bind, lift. destruct o as [a | e |]; [apply H | |]; apply logs_here.
Qed.

Lemma get_route_logs (a j : Z) (wa wj : geopoint) (w : world) :
  0 <= a -> a < j -> j <= total_points - 1 ->
  Py.getitem raw_waypoints a = Some wa ->
  Py.getitem raw_waypoints j = Some wj ->
  logs (get_route_via_forward_routing router_type [coords_of wa; coords_of wj]
          false trip_type w) w 1.
Proof.
  intros H0 Hj Hn Hwa Hwj. rewrite get_route_unfold.
  eexists. cbn [snd calls]. split; [reflexivity |]. split; [cbn; lia |].
  constructor; [| constructor]. exists a, j, wa, wj. auto 10.
Qed.

Lemma pow2_succ (k : nat) : 2 ^ Z.of_nat (S k) = 2 * 2 ^ Z.of_nat k.
Proof. rewrite Nat2Z.inj_succ, Z.pow_succ_r by lia. reflexivity. Qed.

Lemma pow2_pos (k : nat) : 0 < 2 ^ Z.of_nat k.
Proof. apply Z.pow_pos_nonneg; lia. Qed.

Lemma expansion_logs (fuel : nat) (a lower step : Z) (k : nat) (wa : geopoint)
    (w : world) :
  Py.getitem raw_waypoints a = Some wa ->
  0 <= a -> 1 <= step ->
  total_points - a <= step * 2 ^ Z.of_nat k ->
  logs (expansion fuel (coords_of wa) a lower step w) w k.
Proof.
  intros Hwa Ha. revert lower step k w.
  induction fuel as [| fuel IH]; intros lower step k w Hs Hk; [apply logs_here |].
  cbn [expansion].
  destruct (Z.leb_spec total_points (a + step)) as [Hge | Hlt]; [apply logs_here |].
  destruct k as [| k]; [cbn in Hk; lia |].
  rewrite pow2_succ in Hk.
  destruct (point_at_in_range (a + step) w) as (wj & Hwj & Hpt); [lia |].
  erewrite bind_Returned by exact Hpt.
  change (S k) with (1 + k)%nat. apply logs_bind.
  - apply (get_route_logs a (a + step)); auto; lia.
  - intros seg w1 _. apply logs_lift. intros [|]; cbn [negb].
    + apply IH; lia.
    + apply logs_here.
Qed.

Lemma binary_search_logs (fuel : nat) (a lower upper best : Z) (k : nat)
    (wa : geopoint) (w : world) :
  Py.getitem raw_waypoints a = Some wa ->
  0 <= a -> upper <= total_points - 1 ->
  upper - lower + 1 < 2 ^ Z.of_nat k ->
  logs (binary_search fuel (coords_of wa) a lower upper best w) w k.
Proof.
  intros Hwa Ha. revert lower upper best k w.
  induction fuel as [| fuel IH]; intros lower upper best k w Hu Hk; [apply logs_here |].
  cbn [binary_search].
  destruct (Z.leb_spec lower upper) as [Hle | Hgt]; [| apply logs_here].
  destruct (Z.leb_spec ((lower + upper) / 2) a) as [Hmid | Hmid]; [apply logs_here |].
  assert (Hlo : 2 * ((lower + upper) / 2) <= lower + upper)
    by (apply Z.mul_div_le; lia).
  assert (Hhi : lower + upper < 2 * ((lower + upper) / 2) + 2).
  { pose proof (Z.mul_succ_div_gt (lower + upper) 2 ltac:(lia)). lia. }
  set (mid := (lower + upper) / 2) in *.
  destruct k as [| k]; [cbn in Hk; lia |].
  rewrite pow2_succ in Hk.
  destruct (point_at_in_range mid w) as (wj & Hwj & Hpt); [lia |].
  erewrite bind_Returned by exact Hpt.
  change (S k) with (1 + k)%nat. apply logs_bind.
  - apply (get_route_logs a mid); auto; lia.
  - intros seg w1 _. apply logs_lift. intros [|]; apply IH; lia.
Qed.

Lemma search_logs (a : Z) (k : nat) (wa : geopoint) (w : world) :
  Py.getitem raw_waypoints a = Some wa ->
  0 <= a < total_points - 1 ->
  total_points - a <= 2 ^ Z.of_nat k ->
  logs (search (coords_of wa) a w) w (k + S k).
Proof.
  intros Hwa Ha Hk. unfold search. apply logs_bind.
  - apply expansion_logs; auto; lia.
  - intros [lo up] w1 E. cbn [fst snd].
    assert (B : ensures (expansion loop_fuel (coords_of wa) a a 1 w)
                  (fun b _ => a <= fst b /\ fst b <= snd b /\
                              snd b <= total_points - 1 /\ a < snd b)).
    { apply expansion_ensures; try lia. apply loop_fuel_enough. lia. }
    rewrite E in B. cbn in B.
    apply binary_search_logs; auto; try lia.
    rewrite pow2_succ. lia.
Qed.

Lemma commit_or_skip_logs (st : loop_state) (best : Z) (wa : geopoint) (w : world) :
  Py.getitem raw_waypoints (last_anchor_idx st) = Some wa ->
  0 <= last_anchor_idx st ->
  best <= total_points - 1 ->
  logs (commit_or_skip st (coords_of wa) best w) w 1.
Proof.
  intros Hwa Ha Hb. unfold commit_or_skip.
  destruct (Z.leb_spec best (last_anchor_idx st)) as [Hle | Hgt]; [apply logs_here |].
  destruct (point_at_in_range best w) as (wb & Hwb & Hpt); [lia |].
  erewrite bind_Returned by exact Hpt.
  change 1%nat with (1 + 0)%nat. apply logs_bind.
  - apply (get_route_logs (last_anchor_idx st) best); auto.
  - intros [seg |] w1 _; apply logs_here.
Qed.

(** Calls of one pass of the main loop when at most [2 ^ k] raw points
    are left from the anchor on. *)
Definition calls_per_pass (k : nat) : nat := (k + S k + 1)%nat.

Lemma iteration_logs (st : loop_state) (k : nat) (w : world) :
  invariant st ->
  last_anchor_idx st < total_points - 1 ->
  total_points - last_anchor_idx st <= 2 ^ Z.of_nat k ->
  logs (iteration st w) w (calls_per_pass k).
Proof.
  intros Inv Hlt Hk. pose proof (inv_anchor st Inv) as Ha.
  unfold iteration, calls_per_pass.
  destruct (point_at_in_range (last_anchor_idx st) w) as (wa & Hwa & Hpt); [lia |].
  erewrite bind_Returned by exact Hpt.
  apply logs_bind.
  - apply search_logs; auto; lia.
  - intros best w1 E.
    assert (B : ensures (search (coords_of wa) (last_anchor_idx st) w)
                  (fun b _ => last_anchor_idx st <= b <= total_points - 1))
      by (apply search_ensures; lia).
    rewrite E in B. cbn in B.
    apply commit_or_skip_logs; auto; lia.
Qed.

Lemma main_loop_logs (fuel : nat) (st : loop_state) (k : nat) (w : world) :
  invariant st ->
  total_points <= 2 ^ Z.of_nat k ->
  logs (main_loop fuel st w) w
    (Z.to_nat (total_points - 1 - last_anchor_idx st) * calls_per_pass k).
Proof.
  revert st w. induction fuel as [| fuel IH]; intros st w Inv Hk; [apply logs_here |].
  cbn [main_loop]. pose proof (inv_anchor st Inv) as Ha.
  destruct (Z.ltb_spec (last_anchor_idx st) (total_points - 1)) as [Hlt | Hge];
    [| apply logs_here].
  eapply logs_weaken.
  - apply (logs_bind (iteration st) (main_loop fuel) w (calls_per_pass k)
             (Z.to_nat (total_points - 2 - last_anchor_idx st) * calls_per_pass k)).
    + apply (iteration_logs st k w Inv Hlt). lia.
    + intros st' w1 E.
      assert (B : ensures (iteration st w)
                    (fun st' _ => invariant st' /\ progress st st'))
        by (apply iteration_ensures; assumption).
      rewrite E in B. destruct B as [Inv' Hp]. apply progress_anchor in Hp.
      eapply logs_weaken; [apply (IH st' w1 Inv' Hk) |].
      apply Nat.mul_le_mono_r. lia.
  - replace (Z.to_nat (total_points - 1 - last_anchor_idx st))
      with (S (Z.to_nat (total_points - 2 - last_anchor_idx st))) by lia.
    cbn [Nat.mul]. lia.
Qed.

Lemma clean_logs (k : nat) (w : world) :
  total_points <= 2 ^ Z.of_nat k ->
  logs (clean_gps_route w) w (Z.to_nat (total_points - 1) * calls_per_pass k).
Proof.
  intro Hk. unfold clean_gps_route.
  destruct (Z.ltb_spec (Py.len raw_waypoints) 2) as [Hshort | Hlong];
    [apply logs_here |].
  destruct (point_at_in_range 0 w) as (wp & Hwp & Hpt); [unfold total_points; lia |].
  erewrite bind_Returned by exact Hpt.
  eapply logs_weaken.
  - apply (logs_bind _ _ w (Z.to_nat (total_points - 1) * calls_per_pass k) 0).
    + pose proof (main_loop_logs loop_fuel (initial_state (coords_of wp)) k w) as L.
      cbn [initial_state last_anchor_idx] in L. rewrite Z.sub_0_r in L.
      apply L; [| exact Hk]. apply initial_invariant; [exact Hlong | exact Hwp].
    + intros st w1 _. unfold finish.
      destruct (Py.getitem (key_waypoints_coords st) (-1)); apply logs_here.
  - lia.
Qed.

Lemma pow2_above (n : Z) : exists k : nat, n <= 2 ^ Z.of_nat k.
Proof.
  exists (Z.to_nat n). destruct (Z.le_gt_cases n 0) as [Hn | Hn].
  - pose proof (pow2_pos (Z.to_nat n)). lia.
  - rewrite Z2Nat.id by lia. apply Z.lt_le_incl, Z.pow_gt_lin_r; lia.
Qed.

(** X1: whatever the collaborator answers, and whether the run returns or
    raises, [clean_gps_route] keeps the log of calls it found and every
    call it adds asks for the route from one raw point to a later raw
    point of the trace, with the trip type and the profile of the run. *)
Theorem run_only_queries_forward_pairs (w : world) :
  exists new,
    calls (snd (clean_gps_route w)) = calls w ++ new /\
    Forall pair_query new.
Proof.
  destruct (pow2_above total_points) as [k Hk].
  destruct (clean_logs k w Hk) as (new & H1 & _ & H3).
  exists new. split; assumption.
Qed.

(** X2: on a trace of at most [2 ^ k] points a run makes at most
    [(len - 1) * (2 * k + 2)] routing calls, whatever the collaborator
    answers and whether the run returns or raises. *)
Theorem run_call_bound (k : nat) (w : world) :
  Py.len raw_waypoints <= 2 ^ Z.of_nat k ->
  exists new,
    calls (snd (clean_gps_route w)) = calls w ++ new /\
    (length new <= Z.to_nat (Py.len raw_waypoints - 1) * (2 * k + 2))%nat.
Proof.
  intro Hk. destruct (clean_logs k w Hk) as (new & H1 & H2 & _).
  exists new. split; [exact H1 |].
  unfold calls_per_pass, total_points in H2. lia.
Qed.

(** X3: one pass of the main loop from a state the run reaches makes at
    most [2 * k + 2] routing calls when at most [2 ^ k] raw points are
    left from the anchor on: at most [k] in the expansion, [k + 1] in the
    binary search and one at the commit. *)
Theorem pass_call_bound (n k : nat) (wp : geopoint) (w0 w : world) (st : loop_state) :
  2 <= total_points ->
  Py.getitem raw_waypoints 0 = Some wp ->
  run_prefix n (initial_state (coords_of wp)) w0 = (Returned st, w) ->
  last_anchor_idx st < total_points - 1 ->
  total_points - last_anchor_idx st <= 2 ^ Z.of_nat k ->
  exists new,
    calls (snd (iteration st w)) = calls w ++ new /\
    (length new <= 2 * k + 2)%nat.
Proof.
  intros Hn H0 Hrun Hlt Hk.
  assert (Inv : invariant st).
  { assert (E : ensures (run_prefix n (initial_state (coords_of wp)) w0)
                  (fun st' _ => invariant st')).
    { apply run_prefix_ensures, initial_invariant; assumption. }
    rewrite Hrun in E. exact E. }
  destruct (iteration_logs st k w Inv Hlt Hk) as (new & H1 & H2 & _).
  exists new. split; [exact H1 |]. unfold calls_per_pass in H2. lia.
Qed.

(** ** The first probe of a pass *)

(** Python's truth value of [segment_coords]. *)
Definition usable (segment_coords : option (list coords)) : bool :=
  match segment_coords with
  | Some (_ :: _) => true
  | _ => false
  end.

Lemma intermediate_empty (lo : Z) : intermediate lo lo = [].
Proof.
  unfold intermediate, Py.slice. rewrite Z.sub_diag. reflexivity.
Qed.

Lemma acceptable_adjacent (seg : option (list coords)) (lo : Z) :
  acceptable seg (intermediate lo lo) deviation_threshold = Returned (usable seg).
Proof.
  rewrite intermediate_empty. destruct seg as [[| p l] |]; reflexivity.
Qed.

Lemma ensures_and {A : Type} (r : outcome A * world) (Q1 Q2 : A -> world -> Prop) :
  ensures r Q1 -> ensures r Q2 -> ensures r (fun a w => Q1 a w /\ Q2 a w).
Proof.
  unfold ensures. destruct r as [[a | e |] w]; auto.
Qed.

Lemma expansion_keeps_lower (fuel : nat) (sp : coords) (a lower step : Z) (w : world) :
  0 < step -> lower < a + step ->
  (Z.to_nat (total_points - (a + step)) < fuel)%nat ->
  ensures (expansion fuel sp a lower step w) (fun b _ => lower <= fst b).
Proof.
  revert lower step w.
  induction fuel as [| fuel IH]; intros lower step w Hs Hl Hf; [lia |].
  cbn [expansion].
  destruct (Z.leb_spec total_points (a + step)) as [Hge | Hlt].
  - apply ensures_ret. simpl. lia.
  - eapply ensures_bind; [apply point_at_ensures |]. intros probe_point w1 _.
    eapply ensures_bind; [apply get_route_ensures |]. intros seg w2 _.
    eapply ensures_bind; [apply acceptable_ensures |]. intros [|] w3 _; cbn [negb].
    + eapply ensures_weaken; [apply IH; lia |]. cbn beta. intros; lia.
    + apply ensures_ret. simpl. lia.
Qed.

Lemma binary_search_keeps_best (fuel : nat) (sp : coords) (a lower upper best : Z)
    (w : world) :
  best <= lower ->
  (Z.to_nat (upper - lower + 1) < fuel)%nat ->
  ensures (binary_search fuel sp a lower upper best w) (fun b _ => best <= b).
Proof.
  revert lower upper best w.
  induction fuel as [| fuel IH]; intros lower upper best w Hb Hf; [lia |].
  cbn [binary_search].
  destruct (Z.leb_spec lower upper) as [Hle | Hgt]; [| apply ensures_ret; lia].
  destruct (Z.leb_spec ((lower + upper) / 2) a) as [Hmid | Hmid];
    [apply ensures_ret; lia |].
  assert (Hrange : lower <= (lower + upper) / 2 <= upper).
  { split; [apply Z.div_le_lower_bound | apply Z.div_le_upper_bound]; lia. }
  eapply ensures_bind; [apply point_at_ensures |]. intros candidate_point w1 _.
  eapply ensures_bind; [apply get_route_ensures |]. intros seg w2 _.
  eapply ensures_bind; [apply acceptable_ensures |]. intros [|] w3 _.
  - eapply ensures_weaken; [apply IH; lia |]. cbn beta. intros; lia.
  - apply IH; lia.
Qed.

(** The state after the single-point skip of lines 80 to 83. *)
Definition skip_state (st : loop_state) : loop_state :=
  {| last_anchor_idx := last_anchor_idx st + 1;
     key_waypoints_coords := key_waypoints_coords st;
     final_route_coords := final_route_coords st;
     anchor_trace := anchor_trace st ++ [last_anchor_idx st + 1];
     commits := commits st |}.

Lemma commit_branch (st st' : loop_state) (sp : coords) (best : Z) (w w' : world) :
  last_anchor_idx st < best ->
  commit_or_skip st sp best w = (Returned st', w') ->
  committed st st'.
Proof.
  intros Hgt H. unfold commit_or_skip in H.
  destruct (Z.leb_spec best (last_anchor_idx st)) as [Hle | _]; [lia |].
  unfold point_at in H.
  destruct (Py.getitem raw_waypoints best) as [wb |] eqn:Hwb; [| discriminate].
  unfold bind at 1 in H. cbn [ret] in H.
  apply bind_inv_Returned in H. destruct H as ([seg |] & w1 & _ & H); [| discriminate].
  injection H as <- _. split; [cbn; lia |].
  exists seg, (coords_of wb). cbn. unfold raw_coords. rewrite Hwb. repeat split.
Qed.

Section FirstProbe.

Variable st : loop_state.
Variables wa wb : geopoint.

Hypothesis anchor_in_range : 0 <= last_anchor_idx st < total_points - 1.
Hypothesis anchor_point : Py.getitem raw_waypoints (last_anchor_idx st) = Some wa.
Hypothesis next_point : Py.getitem raw_waypoints (last_anchor_idx st + 1) = Some wb.

Lemma first_probe_unfold (w : world) :
  search (coords_of wa) (last_anchor_idx st) w
  = bind (get_route_via_forward_routing router_type [coords_of wa; coords_of wb]
            false trip_type)
         (fun seg =>
            if usable seg
            then bind (expansion (length raw_waypoints) (coords_of wa)
                         (last_anchor_idx st) (last_anchor_idx st + 1) 2)
                      (fun bounds =>
                         binary_search loop_fuel (coords_of wa) (last_anchor_idx st)
                           (fst bounds) (snd bounds) (fst bounds))
            else ret (last_anchor_idx st)) w.
Proof.
  unfold search, loop_fuel. cbn [expansion].
  destruct (Z.leb_spec total_points (last_anchor_idx st + 1)) as [Hge | _]; [lia |].
  unfold point_at at 1. rewrite next_point.
  rewrite !bind_assoc. unfold bind at 1. cbn [ret].
  rewrite bind_assoc. apply bind_ext. intros seg w1.
  rewrite bind_assoc, acceptable_adjacent, (bind_lift_Returned _ _ _ (usable seg) eq_refl).
  destruct (usable seg); cbn [negb].
  - reflexivity.
  - unfold bind at 1. cbn [ret fst snd binary_search].
    destruct (Z.leb_spec (last_anchor_idx st) (last_anchor_idx st + 1)) as [_ | H];
      [| lia].
    replace ((last_anchor_idx st + (last_anchor_idx st + 1)) / 2)
      with (last_anchor_idx st)
      by (apply (Z.div_unique _ 2 _ 1); lia).
    destruct (Z.leb_spec (last_anchor_idx st) (last_anchor_idx st)) as [_ | H];
      [reflexivity | lia].
Qed.

Lemma pass_skips (w w1 : world) (seg : option (list coords)) :
  get_route_via_forward_routing router_type [coords_of wa; coords_of wb]
    false trip_type w = (Returned seg, w1) ->
  usable seg = false ->
  iteration st w = (Returned (skip_state st), w1).
Proof.
  intros Hroute Hu. unfold iteration, point_at at 1. rewrite anchor_point.
  unfold bind at 1. cbn [ret].
  erewrite bind_Returned; [| rewrite first_probe_unfold;
                             erewrite bind_Returned by exact Hroute;
                             rewrite Hu; reflexivity].
  unfold commit_or_skip.
  destruct (Z.leb_spec (last_anchor_idx st) (last_anchor_idx st)) as [_ | H];
    [reflexivity | lia].
Qed.

Lemma pass_commits (w w1 w' : world) (seg : option (list coords)) (st' : loop_state) :
  get_route_via_forward_routing router_type [coords_of wa; coords_of wb]
    false trip_type w = (Returned seg, w1) ->
  usable seg = true ->
  iteration st w = (Returned st', w') ->
  committed st st'.
Proof.
  intros Hroute Hu Hit. unfold iteration, point_at at 1 in Hit.
  rewrite anchor_point in Hit. unfold bind at 1 in Hit. cbn [ret] in Hit.
  apply bind_inv_Returned in Hit. destruct Hit as (best & w2 & Hsearch & Hcommit).
  apply (commit_branch st st' (coords_of wa) best w2 w'); [| exact Hcommit].
  rewrite first_probe_unfold in Hsearch.
  erewrite bind_Returned in Hsearch by exact Hroute. rewrite Hu in Hsearch.
  apply bind_inv_Returned in Hsearch.
  destruct Hsearch as ([lo up] & w3 & Hexp & Hbin). cbn [fst snd] in Hbin.
  assert (E1 : ensures (expansion (length raw_waypoints) (coords_of wa)
                          (last_anchor_idx st) (last_anchor_idx st + 1) 2 w1)
                 (fun b _ => last_anchor_idx st + 1 <= fst b)).
  { apply expansion_keeps_lower; try lia. unfold total_points, Py.len in *. lia. }
  rewrite Hexp in E1. cbn in E1.
  assert (E0 : ensures (expansion (length raw_waypoints) (coords_of wa)
                          (last_anchor_idx st) (last_anchor_idx st + 1) 2 w1)
                 (fun b _ => last_anchor_idx st <= fst b /\ fst b <= snd b /\
                             snd b <= total_points - 1 /\ last_anchor_idx st < snd b)).
  { apply expansion_ensures; try lia. unfold total_points, Py.len in *. lia. }
  rewrite Hexp in E0. cbn in E0.
  assert (E2 : ensures (binary_search loop_fuel (coords_of wa) (last_anchor_idx st)
                          lo up lo w3)
                 (fun b _ => lo <= b)).
  { apply binary_search_keeps_best; [lia |]. apply loop_fuel_enough. lia. }
  rewrite Hbin in E2. cbn in E2. lia.
Qed.

(** X4: a pass of the main loop takes the single-point skip exactly when
    the route of its first probe (anchor to the next raw point) is [None]
    or empty; it then ends after that one call, with the anchor advanced
    by one and nothing else changed.  When that route is usable, a pass
    that completes has committed a segment. *)
Theorem first_probe_decides_skip (w w1 : world) (seg : option (list coords)) :
  get_route_via_forward_routing router_type [coords_of wa; coords_of wb]
    false trip_type w = (Returned seg, w1) ->
  (usable seg = false -> iteration st w = (Returned (skip_state st), w1)) /\
  (usable seg = true ->
   forall st' w', iteration st w = (Returned st', w') -> committed st st').
Proof.
  intro Hroute. split.
  - intro Hu. exact (pass_skips w w1 seg Hroute Hu).
  - intros Hu st' w' Hit. exact (pass_commits w w1 w' seg st' Hroute Hu Hit).
Qed.

End FirstProbe.

(** ** A trace on which no route is found *)

(** Every answer of the collaborator decodes to no route, or to an empty
    one. *)
Definition never_routes : Prop :=
  forall p t o s,
  exists r, decode_response false (fst (forwardRouting p t o s)) = Returned r /\
            usable r = false.

Lemma main_loop_all_skips (fuel : nat) (st : loop_state) (w : world) :
  never_routes ->
  0 <= last_anchor_idx st <= total_points - 1 ->
  (Z.to_nat (total_points - 1 - last_anchor_idx st) < fuel)%nat ->
  exists st' w',
    main_loop fuel st w = (Returned st', w') /\
    key_waypoints_coords st' = key_waypoints_coords st /\
    final_route_coords st' = final_route_coords st /\
    length (calls w')
    = (length (calls w) + Z.to_nat (total_points - 1 - last_anchor_idx st))%nat.
Proof.
  intro Hnever. revert st w.
  induction fuel as [| fuel IH]; intros st w Ha Hf; [lia |].
  cbn [main_loop].
  destruct (Z.ltb_spec (last_anchor_idx st) (total_points - 1)) as [Hlt | Hge].
  - destruct (getitem_in_range raw_waypoints (last_anchor_idx st)) as [wa Hwa];
      [fold total_points; lia |].
    destruct (getitem_in_range raw_waypoints (last_anchor_idx st + 1)) as [wb Hwb];
      [fold total_points; lia |].
    pose proof (get_route_unfold router_type [coords_of wa; coords_of wb] false
                  trip_type w) as Hroute.
    destruct (Hnever (router_path_of router_type [coords_of wa; coords_of wb])
                trip_type (options_of router_type [coords_of wa; coords_of wb])
                (collaborator w)) as (r & Hr & Hu).
    unfold transport in Hroute at 1. rewrite Hr in Hroute.
    erewrite bind_Returned
      by (apply (pass_skips st wa wb ltac:(lia) Hwa Hwb _ _ r Hroute Hu)).
    match type of Hroute with _ = (_, ?w1) => set (w1' := w1) in * end.
    destruct (IH (skip_state st) w1') as (st' & w' & Hloop & Hk & Hp & Hc).
    { cbn. lia. }
    { cbn. lia. }
    exists st', w'. split; [exact Hloop |]. split; [exact Hk |]. split; [exact Hp |].
    rewrite Hc. subst w1'. cbn [calls skip_state last_anchor_idx].
    rewrite length_app. cbn [length]. lia.
  - exists st, w. split; [reflexivity |]. split; [reflexivity |].
    split; [reflexivity |]. lia.
Qed.

(** X15: when the collaborator never finds a usable route, the run still
    succeeds: it makes one call for each raw point after the first
    ([len - 1] calls in all), skips them all, and returns the first raw
    point alone as [waypoints] and as [path], with [distance] 0,
    [reroute_count] -1 and [compression_ratio] [len / 1]. *)
Theorem unroutable_trace_keeps_first_point (w : world) :
  2 <= Py.len raw_waypoints ->
  never_routes ->
  exists wp w',
    Py.getitem raw_waypoints 0 = Some wp /\
    clean_gps_route w
    = (Returned (Success [wp] [wp] (of_int 0) 0 (-1)
                   (f_div (of_int (Py.len raw_waypoints)) (of_int 1))), w') /\
    length (calls w') = (length (calls w) + Z.to_nat (Py.len raw_waypoints - 1))%nat.
Proof.
  intros Hn Hnever. fold total_points in Hn.
  destruct (point_at_in_range 0 w) as (wp & Hwp & Hpt); [lia |].
  destruct (main_loop_all_skips loop_fuel (initial_state (coords_of wp)) w Hnever)
    as (st & w' & Hloop & Hk & Hp & Hc).
  { cbn. lia. }
  { cbn. apply loop_fuel_enough. lia. }
  cbn [initial_state key_waypoints_coords final_route_coords last_anchor_idx] in *.
  exists wp, w'. split; [exact Hwp |]. split.
  - unfold clean_gps_route.
    destruct (Z.ltb_spec (Py.len raw_waypoints) 2) as [H | _];
      [unfold total_points in Hn; lia |].
    erewrite bind_Returned by exact Hpt. erewrite bind_Returned by exact Hloop.
    unfold finish. rewrite Hk, Hp. cbn. rewrite to_dict_coords_of. reflexivity.
  - rewrite Hc. unfold total_points. rewrite Z.sub_0_r. reflexivity.
Qed.

(** ** Exceptions leave the run *)

Lemma run_raises_with_pass (n : nat) (wp : geopoint) (w0 w1 w3 : world)
    (st : loop_state) (e : exn) :
  2 <= total_points ->
  Py.getitem raw_waypoints 0 = Some wp ->
  run_prefix n (initial_state (coords_of wp)) w0 = (Returned st, w1) ->
  last_anchor_idx st < total_points - 1 ->
  iteration st w1 = (Raised e, w3) ->
  clean_gps_route w0 = (Raised e, w3).
Proof.
  intros Hn H0 Hrun Hlt Hit.
  assert (Hloop : main_loop loop_fuel (initial_state (coords_of wp)) w0
                  = (Raised e, w3)).
  { rewrite <- (main_loop_more_fuel loop_fuel (S n))
      by (apply clean_main_loop_halts; assumption).
    replace (loop_fuel + S n)%nat with (n + S loop_fuel)%nat by lia.
    rewrite main_loop_split. erewrite bind_Returned by exact Hrun.
    cbn [main_loop].
    destruct (Z.ltb_spec (last_anchor_idx st) (total_points - 1)) as [_ | Hge]; [| lia].
    erewrite bind_Raised by exact Hit. reflexivity. }
  unfold clean_gps_route.
  destruct (Z.ltb_spec (Py.len raw_waypoints) 2) as [Hshort | _];
    [unfold total_points in Hn; lia |].
  unfold point_at. rewrite H0. unfold bind at 1. cbn [ret].
  erewrite bind_Raised by exact Hloop. reflexivity.
Qed.

(** X5: the run has no handler for what the routing client raises: when
    the first probe of a pass raises (an answer that is neither a
    [Response] nor a string, a body that is not JSON, a missing key),
    [clean_gps_route] raises the same exception, and the log ends with
    that call. *)
Theorem probe_exception_ends_run (n : nat) (wp wa wb : geopoint)
    (w0 w1 w3 : world) (st : loop_state) (e : exn) :
  2 <= total_points ->
  Py.getitem raw_waypoints 0 = Some wp ->
  run_prefix n (initial_state (coords_of wp)) w0 = (Returned st, w1) ->
  last_anchor_idx st < total_points - 1 ->
  Py.getitem raw_waypoints (last_anchor_idx st) = Some wa ->
  Py.getitem raw_waypoints (last_anchor_idx st + 1) = Some wb ->
  get_route_via_forward_routing router_type [coords_of wa; coords_of wb]
    false trip_type w1 = (Raised e, w3) ->
  clean_gps_route w0 = (Raised e, w3).
Proof.
  intros Hn H0 Hrun Hlt Hwa Hwb Hroute.
  assert (Inv : invariant st).
  { assert (E : ensures (run_prefix n (initial_state (coords_of wp)) w0)
                  (fun st' _ => invariant st')).
    { apply run_prefix_ensures, initial_invariant; assumption. }
    rewrite Hrun in E. exact E. }
  pose proof (inv_anchor st Inv) as Ha.
  apply (run_raises_with_pass n wp w0 w1 w3 st e); try assumption.
  unfold iteration, point_at at 1. rewrite Hwa. unfold bind at 1. cbn [ret].
  erewrite bind_Raised; [reflexivity |].
  rewrite (first_probe_unfold st wa wb) by (assumption || lia).
  erewrite bind_Raised by exact Hroute. reflexivity.
Qed.

Lemma slice_one {A : Type} (l : list A) (i : Z) (x : A) :
  0 <= i -> Py.getitem l i = Some x -> Py.slice l i (i + 1) = [x].
Proof.
  intros Hi H. unfold Py.getitem in H.
  destruct (Z.ltb_spec i 0) as [Hneg | _]; [lia |].
  unfold Py.slice. replace (Z.to_nat (i + 1 - i)) with 1%nat by lia.
  revert H. generalize (Z.to_nat i) as k. clear Hi. intro k. revert l.
  induction k as [| k IH]; intros [| y l] H; try discriminate.
  - injection H as ->. reflexivity.
  - apply IH, H.
Qed.

(** X16: the run has no handler for what the validator raises either.
    When the first probe of a pass finds a usable route and the second
    probe, two raw points after the anchor, is answered with a route of a
    single point, line 120 raises (shapely refuses the line) and
    [clean_gps_route] ends with that exception, after the second call of
    the pass. *)
Theorem one_point_route_ends_run (n : nat) (wp wa wb wc : geopoint)
    (w0 w1 w2 w3 : world) (st : loop_state) (seg : option (list coords)) (c : coords) :
  2 <= total_points ->
  Py.getitem raw_waypoints 0 = Some wp ->
  run_prefix n (initial_state (coords_of wp)) w0 = (Returned st, w1) ->
  last_anchor_idx st + 2 <= total_points - 1 ->
  Py.getitem raw_waypoints (last_anchor_idx st) = Some wa ->
  Py.getitem raw_waypoints (last_anchor_idx st + 1) = Some wb ->
  Py.getitem raw_waypoints (last_anchor_idx st + 2) = Some wc ->
  get_route_via_forward_routing router_type [coords_of wa; coords_of wb]
    false trip_type w1 = (Returned seg, w2) ->
  usable seg = true ->
  get_route_via_forward_routing router_type [coords_of wa; coords_of wc]
    false trip_type w2 = (Returned (Some [c]), w3) ->
  clean_gps_route w0 = (Raised GEOSException, w3).
Proof.
  intros Hn H0 Hrun Hlt Hwa Hwb Hwc Hroute1 Hu Hroute2.
  assert (Inv : invariant st).
  { assert (E : ensures (run_prefix n (initial_state (coords_of wp)) w0)
                  (fun st' _ => invariant st')).
    { apply run_prefix_ensures, initial_invariant; assumption. }
    rewrite Hrun in E. exact E. }
  pose proof (inv_anchor st Inv) as Ha.
  apply (run_raises_with_pass n wp w0 w1 w3 st GEOSException); try assumption; [lia |].
  unfold iteration, point_at at 1. rewrite Hwa. unfold bind at 1. cbn [ret].
  erewrite bind_Raised; [reflexivity |].
  rewrite (first_probe_unfold st wa wb) by (assumption || lia).
  erewrite bind_Returned by exact Hroute1. rewrite Hu.
  erewrite bind_Raised; [reflexivity |].
  destruct (length raw_waypoints) as [| m] eqn:Hm;
    [unfold total_points, Py.len in Hn; lia |].
  cbn [expansion].
  destruct (Z.leb_spec total_points (last_anchor_idx st + 2)) as [Hge | _]; [lia |].
  unfold point_at. rewrite Hwc. unfold bind at 1. cbn [ret].
  erewrite bind_Returned by exact Hroute2.
  unfold intermediate.
  replace (last_anchor_idx st + 2) with (last_anchor_idx st + 1 + 1) by lia.
  rewrite (slice_one raw_waypoints (last_anchor_idx st + 1) wb) by (lia || assumption).
  reflexivity.
Qed.

(** ** The shape of a successful result *)

Lemma sorted_length_le (x hi : Z) (l : list Z) :
  StronglySorted Z.lt (x :: l) ->
  Forall (fun i => i <= hi) (x :: l) ->
  Z.of_nat (length (x :: l)) <= hi - x + 1.
Proof.
  revert x. induction l as [| y l IH]; intros x Hs Hb.
  - inversion Hb; subst. cbn. lia.
  - inversion Hs as [| ? ? Hs' Hx]; subst. inversion Hb as [| ? ? _ Hb']; subst.
    inversion Hx as [| ? ? Hxy _]; subst.
    specialize (IH y Hs' Hb'). cbn [length] in *. lia.
Qed.

Lemma coords_of_to_dict (c : coords) : coords_of (to_dict c) = c.
Proof. destruct c; reflexivity. Qed.

(** X6: the [waypoints] of a successful result are a subsequence of the
    raw trace: they are the raw points at strictly increasing indices
    between 0 and [len(raw_waypoints) - 1], the first of which is 0.  So
    there are between 1 and [len(raw_waypoints)] of them, and
    [reroute_count] is at most [len(raw_waypoints) - 2]. *)
Theorem waypoints_are_raw_points (w w' : world) (kw path : list geopoint)
    (distance ratio : number) (duration rc : Z) :
  clean_gps_route w = (Returned (Success kw path distance duration rc ratio), w') ->
  exists indices,
    StronglySorted Z.lt indices /\
    hd_error indices = Some 0 /\
    Forall (fun i => 0 <= i < Py.len raw_waypoints) indices /\
    map Some kw = map (Py.getitem raw_waypoints) indices /\
    1 <= Py.len kw <= Py.len raw_waypoints /\
    rc <= Py.len raw_waypoints - 2.
Proof.
  intro Hrun. apply clean_inversion in Hrun.
  destruct Hrun as [(_ & H & _) | (Hn & wp & st & last_key & H0 & _ & Inv & _ & _ & H)];
    [discriminate |].
  unfold result_of in H. injection H as -> _ _ _ -> _.
  pose proof (inv_keys_points st Inv) as Hkp.
  assert (Hmap : map Some (map to_dict (key_waypoints_coords st))
                 = map (Py.getitem raw_waypoints) (key_indices st)).
  { apply (f_equal (map (option_map to_dict))) in Hkp.
    rewrite !map_map in Hkp. rewrite map_map. cbn [option_map] in Hkp.
    rewrite Hkp. apply map_ext. intro i. unfold raw_coords.
    destruct (Py.getitem raw_waypoints i) as [p |]; [| reflexivity].
    cbn. rewrite to_dict_coords_of. reflexivity. }
  assert (Hlen : Py.len (map to_dict (key_waypoints_coords st))
                 = Z.of_nat (length (key_indices st))).
  { apply (f_equal (@length _)) in Hmap. rewrite !length_map in Hmap.
    unfold Py.len. rewrite length_map. lia. }
  assert (Hle : Z.of_nat (length (key_indices st)) <= last_anchor_idx st - 0 + 1).
  { apply sorted_length_le; [apply (inv_keys_sorted st Inv) |
                             apply (inv_keys_bound st Inv)]. }
  pose proof (inv_anchor st Inv) as Ha. unfold total_points in *.
  exists (key_indices st). split; [apply (inv_keys_sorted st Inv) |].
  split; [reflexivity |]. split.
  - pose proof (inv_keys_sorted st Inv) as Hs. pose proof (inv_keys_bound st Inv) as Hb.
    unfold key_indices in *. inversion Hs as [| ? ? _ Hpos]; subst.
    inversion Hb as [| ? ? _ Hb']; subst.
    constructor; [lia |]. rewrite Forall_forall in *. intros i Hi.
    specialize (Hpos i Hi). specialize (Hb' i Hi). cbn beta in *. lia.
  - split; [exact Hmap |]. rewrite Hlen. unfold key_indices in *. cbn [length] in *. lia.
Qed.

(** X7: the [path] of a successful result is never empty, so
    [compression_ratio] is always [len(raw_waypoints) / len(path)] and
    the fallback [0] of line 108 is never taken; [duration] is [0] and
    [distance] is the length of the returned path. *)
Theorem path_is_never_empty (w w' : world) (kw path : list geopoint)
    (distance ratio : number) (duration rc : Z) :
  clean_gps_route w = (Returned (Success kw path distance duration rc ratio), w') ->
  path <> [] /\
  ratio = f_div (of_int (Py.len raw_waypoints)) (of_int (Py.len path)) /\
  duration = 0 /\
  distance = calculate_path_distance_coords (map coords_of path).
Proof.
  intro Hrun. apply clean_inversion in Hrun.
  destruct Hrun as [(_ & H & _) | (Hn & wp & st & last_key & H0 & _ & Inv & _ & _ & H)];
    [discriminate |].
  unfold result_of in H. injection H as _ -> -> -> _ ->.
  assert (Hne : map to_dict (final_route_coords st ++ [last_key]) <> []).
  { rewrite map_app. cbn. intro E. apply app_eq_nil in E. destruct E; discriminate. }
  split; [exact Hne |].
  split.
  - destruct (map to_dict (final_route_coords st ++ [last_key])); [congruence | reflexivity].
  - split; [reflexivity |]. rewrite map_map.
    rewrite (map_ext (fun c => coords_of (to_dict c)) (fun c => c) coords_of_to_dict).
    rewrite map_id. reflexivity.
Qed.

(** ** More about a deterministic collaborator *)

Section Collapse.

Variable respond : string -> string -> string -> response.

Hypothesis respond_deterministic :
  forall p t o s, fst (forwardRouting p t o s) = respond p t o.

Hypothesis respond_answers :
  forall p t o, exists r, decode_response false (respond p t o) = Returned r.




End Collapse.

End Run.

(** ** Theorems about the validator and the routing client *)

Lemma is_not_Ok_spec (code : json) :
  is_not_Ok code = true <-> code <> JString "Ok".
Proof.
  destruct code; simpl; try (split; [discriminate | reflexivity]).
  destruct (String.eqb_spec s "Ok") as [-> | Hne]; simpl.
  - split; [discriminate | congruence].
  - split; [congruence | reflexivity].
Qed.

Lemma obind_not_raised {A B : Type} (e0 : exn) (o : outcome A) (k : A -> outcome B) :
  o <> Raised e0 -> (forall a, k a <> Raised e0) -> obind o k <> Raised e0.
Proof.
  destruct o as [a | e |]; simpl; intros Ho Hk; [apply Hk | congruence | discriminate].
Qed.

Definition unsupported : exn := TypeError "Unsupported response type".

Lemma subscript_key_supported (v : json) (k : string) :
  subscript_key v k <> Raised unsupported.
Proof.
  destruct v; simpl; try discriminate. destruct (dict_get k kv); discriminate.
Qed.

Lemma subscript_zero_supported (v : json) : subscript_zero v <> Raised unsupported.
Proof.
  destruct v as [ | | | | s | l | kv]; simpl; try discriminate.
  - destruct s; discriminate.
  - destruct l; discriminate.
Qed.

Lemma dict_get_default0_supported (v : json) (k : string) :
  dict_get_default0 v k <> Raised unsupported.
Proof.
  destruct v; simpl; try discriminate. destruct (dict_get k kv); discriminate.
Qed.

Lemma ord_supported (x : json) : ord x <> Raised unsupported.
Proof.
  destruct x as [ | | | | s | | ]; simpl; try discriminate.
  destruct s as [| c [| c' s']]; discriminate.
Qed.

Lemma characters_supported (l : list json) : characters l <> Raised unsupported.
Proof.
  induction l as [| x rest IH]; simpl; [discriminate |].
  apply obind_not_raised; [apply ord_supported |]. intro c.
  apply obind_not_raised; [exact IH |]. discriminate.
Qed.

Lemma decode_string_supported (s : string) : decode_string s <> Raised unsupported.
Proof.
  destruct s as [| c s']; simpl; [discriminate |].
  destruct (polyline_decode (String c s')); discriminate.
Qed.

Lemma decode_geometry_supported (g : json) : decode_geometry g <> Raised unsupported.
Proof.
  destruct g as [ | | | | s | l | kv]; simpl; try discriminate.
  - apply decode_string_supported.
  - apply obind_not_raised; [apply characters_supported |]. intro s.
    apply decode_string_supported.
  - destruct kv; discriminate.
Qed.

Lemma decode_response_supported (return_details : bool) (resp : response) :
  resp <> OtherResponse ->
  decode_response return_details resp <> Raised unsupported.
Proof.
  intro Hresp. unfold decode_response. apply obind_not_raised.
  - destruct resp as [data | s |]; [| | congruence].
    + destruct (json_loads data); discriminate.
    + destruct (json_loads s); discriminate.
  - intro routing_result. apply obind_not_raised; [apply subscript_key_supported |].
    intro code. destruct (is_not_Ok code); [discriminate |].
    apply obind_not_raised; [apply subscript_key_supported |]. intro routes.
    apply obind_not_raised; [apply subscript_zero_supported |]. intro route0.
    apply obind_not_raised; [apply subscript_key_supported |]. intro g.
    apply obind_not_raised; [apply decode_geometry_supported |]. intro decoded_coords.
    destruct return_details; [| discriminate].
    apply obind_not_raised; [apply dict_get_default0_supported |]. intro d1.
    apply obind_not_raised; [apply dict_get_default0_supported |]. intro d2.
    discriminate.
Qed.

(** The body of a transport answer that has one. *)
Definition body_of (resp : response) : option string :=
  match resp with
  | FlaskResponse data => Some data
  | StrResponse s => Some s
  | OtherResponse => None
  end.

(** C9: when the engine's answer carries a status code other than
    ["Ok"], the routing client returns the no-route value ([None], or
    [(None, 0, 0)] with details) and does not raise; and it raises
    [TypeError("Unsupported response type")] exactly when the transport
    answer is neither a [Response] object nor a string. *)
Theorem routing_client_failure_kinds (rtype tt : string) (wps : list coords)
    (return_details : bool) (w : world) :
  let resp := fst (transport rtype wps tt w) in
  let result := fst (get_route_via_forward_routing rtype wps return_details tt w) in
  (forall body kv code,
      body_of resp = Some body ->
      json_loads body = Some (JObject kv) ->
      dict_get "code" kv = Some code ->
      code <> JString "Ok" ->
      result = Returned (no_route return_details)) /\
  (result = Raised (TypeError "Unsupported response type") <-> resp = OtherResponse).
Proof.
  intros resp result. unfold result. rewrite get_route_unfold. cbn [fst]. fold resp.
  split.
  - intros body kv code Hbody Hjson Hcode Hne.
    apply is_not_Ok_spec in Hne. unfold decode_response.
    destruct resp as [data | s |]; cbn in Hbody; try discriminate;
      injection Hbody as ->; rewrite Hjson; cbn; rewrite Hcode; cbn; rewrite Hne;
      reflexivity.
  - split.
    + intro H. destruct resp as [data | s |] eqn:E; [| | reflexivity];
        exfalso; eapply decode_response_supported; try exact H; discriminate.
    + intros ->. reflexivity.
Qed.

(** ** More about the routing client *)

Lemma geometry_needs_object (route0 g : json) :
  subscript_key route0 "geometry" = Returned g -> exists kv, route0 = JObject kv.
Proof.
  destruct route0; simpl; try discriminate. eauto.
Qed.

(** The part of [decode_response] after the status check, lines 163 to
    172, as a function of the parsed answer. *)
Lemma decode_response_unfold (return_details : bool) (resp : response) :
  decode_response return_details resp =
  obind (match body_of resp with
         | Some body =>
             match json_loads body with
             | Some v => Returned v
             | None => Raised JSONDecodeError
             end
         | None => Raised (TypeError "Unsupported response type")
         end)
        (fun routing_result =>
           obind (subscript_key routing_result "code")
                 (fun code =>
                    if is_not_Ok code then Returned (no_route return_details)
                    else
                      obind (subscript_key routing_result "routes") (fun routes =>
                      obind (subscript_zero routes) (fun route0 =>
                      obind (subscript_key route0 "geometry") (fun encoded_geometry =>
                      obind (decode_geometry encoded_geometry) (fun decoded_coords =>
                        let route_coords :=
                          map (fun coord => (snd coord, fst coord)) decoded_coords in
                        match return_details as b return outcome (route_ret b) with
                        | true =>
                            obind (dict_get_default0 route0 "distance") (fun d =>
                            obind (dict_get_default0 route0 "duration") (fun t =>
                            Returned (Some route_coords, d, t)))
                        | false => Returned (Some route_coords)
                        end)))))).
Proof.
  unfold decode_response. destruct resp; reflexivity.
Qed.

Ltac same_failure :=
  split;
  [ let r := fresh "r" in
    intro r; split;
    [ discriminate
    | let H := fresh "H" in intros (? & ? & H); discriminate H ]
  | let e := fresh "e" in
    let H := fresh "H" in
    intro e; split; intro H; try discriminate H; injection H as <-; reflexivity ].

(** X10: asking for details changes neither the route nor the outcome:
    the client returns [r] without details exactly when it returns
    [(r, distance, duration)] with them, and it raises the same
    exceptions in both modes. *)
Theorem details_do_not_change_route (resp : response) :
  (forall r, decode_response false resp = Returned r <->
             exists d t, decode_response true resp = Returned (r, d, t)) /\
  (forall e, decode_response false resp = Raised e <->
             decode_response true resp = Raised e).
Proof.
  rewrite !decode_response_unfold.
  destruct (match body_of resp with
            | Some body =>
                match json_loads body with
                | Some v => Returned v
                | None => Raised JSONDecodeError
                end
            | None => Raised (TypeError "Unsupported response type")
            end) as [v | e0 |]; cbn [obind]; [| same_failure | same_failure].
  destruct (subscript_key v "code") as [code | e0 |]; cbn [obind];
    [| same_failure | same_failure].
  destruct (is_not_Ok code).
  { cbn [no_route]. split; [intro r | intro e]; split; try discriminate.
    - intro H. injection H as <-. eauto.
    - intros (d & t & H). injection H as <- _ _. reflexivity. }
  destruct (subscript_key v "routes") as [routes | e0 |]; cbn [obind];
    [| same_failure | same_failure].
  destruct (subscript_zero routes) as [route0 | e0 |]; cbn [obind];
    [| same_failure | same_failure].
  destruct (subscript_key route0 "geometry") as [g | e0 |] eqn:G; cbn [obind];
    [| same_failure | same_failure].
  destruct (geometry_needs_object route0 g G) as [kv ->].
  destruct (decode_geometry g) as [decoded_coords | e0 |]; cbn [obind];
    [| same_failure | same_failure].
  cbn [dict_get_default0].
  destruct (dict_get "distance" kv); destruct (dict_get "duration" kv); cbn [obind];
    (split; [intro r | intro e]; split; try discriminate;
     [intro H; injection H as <-; eauto
     | intros (d & t & H); injection H as <- _ _; reflexivity]).
Qed.

(** X11: the client returns the no-route value only for an answer that
    parses and carries a status code other than ["Ok"]; an ["Ok"] answer
    gives a route or raises. *)
Theorem no_route_only_when_status_is_not_Ok (resp : response) :
  decode_response false resp = Returned None <->
  exists body v code,
    body_of resp = Some body /\
    json_loads body = Some v /\
    subscript_key v "code" = Returned code /\
    code <> JString "Ok".
Proof.
  rewrite decode_response_unfold. split.
  - destruct (body_of resp) as [body |]; [| discriminate].
    destruct (json_loads body) as [v |] eqn:Hv; [| discriminate]. cbn [obind].
    destruct (subscript_key v "code") as [code | e0 |] eqn:Hc; try discriminate.
    cbn [obind]. destruct (is_not_Ok code) eqn:Hok.
    + intros _. exists body, v, code. repeat split; try assumption.
      apply is_not_Ok_spec, Hok.
    + destruct (subscript_key v "routes") as [routes | e0 |]; try discriminate.
      cbn [obind]. destruct (subscript_zero routes) as [route0 | e0 |]; try discriminate.
      cbn [obind].
      destruct (subscript_key route0 "geometry") as [g | e0 |]; try discriminate.
      cbn [obind]. destruct (decode_geometry g); discriminate.
  - intros (body & v & code & Hb & Hv & Hc & Hne).
    rewrite Hb, Hv. cbn [obind]. rewrite Hc. cbn [obind].
    apply is_not_Ok_spec in Hne. rewrite Hne. reflexivity.
Qed.

(** ** More about the validator and the path length *)



Lemma sum_of_legs_snoc (l : list coords) (q d : coords) (total : number) :
  l <> [] ->
  sum_of_legs (l ++ [q]) total
  = f_add (sum_of_legs l total) (haversine_distance (last l d) q).
Proof.
  revert total. induction l as [| p [| p' l'] IH]; intros total Hne.
  - congruence.
  - reflexivity.
  - change (sum_of_legs ((p :: p' :: l') ++ [q]) total)
      with (sum_of_legs ((p' :: l') ++ [q]) (f_add total (haversine_distance p p'))).
    rewrite IH by discriminate. reflexivity.
Qed.

(** X13: appending a point to a path that is not empty adds exactly the
    leg from its last point to the path length, on the right of the sum
    (no reassociation of the floating-point additions is involved). *)
Theorem path_distance_of_extension (l : list coords) (q d : coords) :
  l <> [] ->
  calculate_path_distance_coords (l ++ [q])
  = f_add (calculate_path_distance_coords l) (haversine_distance (last l d) q).
Proof.
  intro Hne. destruct l as [| p [| p' l']]; [congruence | reflexivity |].
  unfold calculate_path_distance_coords.
  assert (H1 : (Py.len ((p :: p' :: l') ++ [q]) <? 2) = false).
  { apply Z.ltb_ge. unfold Py.len. cbn [app length]. lia. }
  assert (H2 : (Py.len (p :: p' :: l') <? 2) = false).
  { apply Z.ltb_ge. unfold Py.len. cbn [length]. lia. }
  rewrite H1, H2. apply sum_of_legs_snoc. discriminate.
Qed.

(** ** Trip types, profiles and snapping radius *)

(** The trip types that are not routed on the rail network. *)
Definition road_or_path_trip (trip_type : string) : bool :=
  (trip_type =? "bus")%string || (trip_type =? "car")%string
  || (trip_type =? "walk")%string || (trip_type =? "cycle")%string.

Ltac router_case := split; [cbn; intuition reflexivity | reflexivity].

(** X14: every trip type maps to one of the four profiles, and the options
    of a request for two points ask for a snapping radius of 150 for the
    trip types bus, car, walk and cycle, and of 1000 for every other trip
    type, known or not. *)
Theorem radius_by_trip_type (trip_type : string) (p q : coords) :
  In (get_router_type trip_type) ["driving"; "rail"; "foot"; "cycling"] /\
  options_of (get_router_type trip_type) [p; q]
  = ("overview=full&continue_straight=false&snapping=any&radiuses="
     ++ (if road_or_path_trip trip_type then "150;150" else "1000;1000"))%string.
Proof.
  unfold get_router_type, road_or_path_trip.
  destruct (String.eqb_spec trip_type "bus") as [-> | ?]; [router_case |].
  destruct (String.eqb_spec trip_type "car") as [-> | ?]; [router_case |].
  destruct (String.eqb_spec trip_type "train") as [-> | ?]; [router_case |].
  destruct (String.eqb_spec trip_type "metro") as [-> | ?]; [router_case |].
  destruct (String.eqb_spec trip_type "tram") as [-> | ?]; [router_case |].
  destruct (String.eqb_spec trip_type "ferry") as [-> | ?]; [router_case |].
  destruct (String.eqb_spec trip_type "aerialway") as [-> | ?]; [router_case |].
  destruct (String.eqb_spec trip_type "walk") as [-> | ?]; [router_case |].
  destruct (String.eqb_spec trip_type "cycle") as [-> | ?]; router_case.
Qed.

End Cleaner.

(** * Exact arithmetic

    The classes [Floats] and [Shapely] at the real numbers: arithmetic
    and the functions of [math] are the real ones, and the projection of
    a point onto a line is the nearest point of the polyline.  This is
    the code without the rounding of floating point. *)

Module Exact.

Local Open Scope R_scope.

(** ** Floats as real numbers *)



(** ** The great-circle distance *)







Lemma sin_cos_sq (x : R) : sin x * sin x + cos x * cos x = 1.
Proof. exact (sin2_cos2 x). Qed.






(** ** The nearest point of a polyline *)
















(** ** The validator in exact arithmetic *)





End Exact.

(** * Concrete traces and collaborators

    Coordinates are whole numbers here.  The stand-ins for the library
    functions are defined only as far as the runs below need them: they
    agree with the libraries on the bodies, the two polylines and the
    points that occur (every other body and polyline is taken not to
    parse).  Where a distance is compared with the threshold below,
    the raw point is either a vertex of the route, and the stand-ins for
    [math] give the exact distance 0, or a whole degree away from it, and
    they give a value beyond the threshold, as the true distance of about
    111 km is.  The [distance] they give for a path of two different
    points is not meaningful; the division is the quotient of whole
    numbers, exact for the ratios that are written out below. *)

Module Examples.

Definition show_Z (z : Z) : string := NilZero.string_of_int (Z.to_int z).

Definition quote : string := String (ascii_of_nat 34) EmptyString.

(** The body [{"code": "NoRoute"}] (with its double quotes). *)
Definition body_no_route : string :=
  ("{" ++ quote ++ "code" ++ quote ++ ": " ++ quote ++ "NoRoute" ++ quote ++ "}")%string.

(** The polyline of the two points (lat 0, lng 0) and (lat 0, lng 1). *)
Definition geometry : string := "???_ibE".

(** The body [{"code": "Ok", "routes": [{"geometry": "???_ibE"}]}]. *)
Definition body_ok : string :=
  ("{" ++ quote ++ "code" ++ quote ++ ": " ++ quote ++ "Ok" ++ quote ++ ", "
       ++ quote ++ "routes" ++ quote ++ ": [{" ++ quote ++ "geometry" ++ quote ++ ": "
       ++ quote ++ geometry ++ quote ++ "}]}")%string.

(** The polyline of the single point (lat 0, lng 0). *)
Definition geometry_of_one_point : string := "??".

(** The body [{"code": "Ok", "routes": [{"geometry": "??"}]}]. *)
Definition body_one_point : string :=
  ("{" ++ quote ++ "code" ++ quote ++ ": " ++ quote ++ "Ok" ++ quote ++ ", "
       ++ quote ++ "routes" ++ quote ++ ": [{" ++ quote ++ "geometry" ++ quote ++ ": "
       ++ quote ++ geometry_of_one_point ++ quote ++ "}]}")%string.

Definition loads (s : string) : option (@json Z) :=
  if (s =? body_no_route)%string then
    Some (JObject [("code", JString "NoRoute")])
  else if (s =? body_ok)%string then
    Some (JObject [("code", JString "Ok");
                   ("routes", JArray [JObject [("geometry", JString geometry)]])])
  else if (s =? body_one_point)%string then
    Some (JObject [("code", JString "Ok");
                   ("routes",
                    JArray [JObject [("geometry", JString geometry_of_one_point)]])])
  else None.

Definition decode (s : string) : option (list (Z * Z)) :=
  if (s =? geometry)%string then Some [(0, 0); (0, 1)]
  else if (s =? geometry_of_one_point)%string then Some [(0, 0)]
  else None.

(** The vertex of the line nearest to the point: the projection of a
    point that is itself a vertex, or that lies on the extension of the
    line beyond its last vertex. *)
Definition nearest_vertex (line : list (Z * Z)) (p : Z * Z) : Z * Z :=
  let d2 (q : Z * Z) := (fst q - fst p) * (fst q - fst p)
                        + (snd q - snd p) * (snd q - snd p) in
  fold_left (fun best q => if d2 q <? d2 best then q else best) line
            (hd p line).

#[local] Instance floats_Z : @Floats Z := {|
  of_int := fun z => z;
  f_add := Z.add;
  f_sub := Z.sub;
  f_mul := Z.mul;
  f_div := Z.div;
  f_pow := Z.pow;
  f_gt := Z.gtb;
  math_radians := fun x => x;
  math_sin := fun x => x;
  math_cos := fun _ => 1;
  math_sqrt := Z.sqrt;
  math_atan2 := fun y _ => y
|}.

#[local] Instance shapely_Z : @Shapely Z := {|
  line_project := nearest_vertex
|}.

#[local] Instance text_Z : @Text Z := {|
  show_number := show_Z;
  json_loads := loads;
  polyline_decode := decode
|}.

(** The cleaner over these stand-ins, for trains and the default
    threshold of 500 m. *)
Definition clean {engine : Type}
    (forwardRouting : string -> string -> string -> engine -> response * engine)
    (raw_waypoints : list (@geopoint Z)) : M (cleaning_result (number := Z)) :=
  clean_gps_route forwardRouting raw_waypoints "train" 500.

(** A collaborator for which no route exists between any two points. *)
Definition refuse_all (_ _ _ : string) (s : unit) : response * unit :=
  (StrResponse body_no_route, s).

(** A collaborator that answers every query with the same route. *)
Definition always_ok (_ _ _ : string) (s : unit) : response * unit :=
  (FlaskResponse body_ok, s).

(** A collaborator that answers every query with a route of a single
    point. *)
Definition always_one_point (_ _ _ : string) (s : unit) : response * unit :=
  (StrResponse body_one_point, s).

(** A collaborator that finds a route on the first call and none
    afterwards; its state counts the calls. *)
Definition answer_once (_ _ _ : string) (n : nat) : response * nat :=
  (if Nat.eqb n 0 then StrResponse body_ok else StrResponse body_no_route,
   S n).

Definition origin : @geopoint Z := {| lat := 0; lng := 0 |}.

Definition east1 : @geopoint Z := {| lat := 0; lng := 1 |}.

Definition east2 : @geopoint Z := {| lat := 0; lng := 2 |}.

Definition east3 : @geopoint Z := {| lat := 0; lng := 3 |}.

Definition trace1 : list (@geopoint Z) := [origin].

Definition trace2 : list (@geopoint Z) := [origin; east1].

Definition trace3 : list (@geopoint Z) := [origin; east1; east2].

Definition trace4 : list (@geopoint Z) := [origin; east1; east2; east3].

(** The state before any call. *)
Definition start {engine : Type} (s : engine) : @world engine :=
  {| collaborator := s; calls := [] |}.

(** The answer of [always_ok], as a function of the query alone. *)
Definition ok_answer (_ _ _ : string) : response := FlaskResponse body_ok.

(** The state of the loop on [trace2] after its only pass with
    [always_ok]. *)
Definition committed_once : @loop_state Z :=
  {| last_anchor_idx := 1;
     key_waypoints_coords := [(0, 0); (1, 0)];
     final_route_coords := [(0, 0)];
     anchor_trace := [0; 1];
     commits := [(1, [(0, 0); (1, 0)])] |}.

(** The query for the route from the first to the second point of
    [trace2]. *)
Definition query01 : string * string * string :=
  ("route/v1/rail/0,0;1,0", "train",
   "overview=full&continue_straight=false&snapping=any&radiuses=1000;1000").

(** [answer_once] after [n] calls, all of them [query01]. *)
Definition asked (n : nat) : @world nat :=
  {| collaborator := n; calls := repeat query01 n |}.

Lemma ok_answer_deterministic (p t o : string) (s : unit) :
  fst (always_ok p t o s) = ok_answer p t o.
Proof. reflexivity. Defined.

Lemma ok_answer_answers (p t o : string) :
  exists r, decode_response false (ok_answer p t o) = Returned r.
Proof. eexists. vm_compute. reflexivity. Defined.

Lemma ok_answer_lines (wps r : list (Z * Z)) :
  route_of "train" ok_answer wps = Some r -> length r <> 1%nat.
Proof. intro H. vm_compute in H. injection H as <-. discriminate. Defined.

(** Every route of [always_ok] has two points, so the validator gives a
    verdict on each of them. *)
Lemma ok_answer_oracle (raw : list (@geopoint Z)) (a : Z) :
  0 <= a -> oracle_from raw "train" 500 ok_answer a.
Proof. apply lines_give_oracle. exact ok_answer_lines. Defined.

Lemma trace2_consecutive_routable :
  consecutive_routable trace2 "train" 500 ok_answer.
Proof.
  intros i Hi.
  assert (Hn : total_points trace2 = 2) by reflexivity. rewrite Hn in Hi.
  assert (Ei : i = 0) by lia. subst i. vm_compute. reflexivity.
Defined.

(** With [always_ok] every route is the line from (0, 0) to (1, 0): from
    the first point of [trace4], indices 1 and 2 are valid, and index 3
    is not (the raw point (2, 0) is a degree away from the line). *)
Lemma ok_answer_monotone : monotone_from trace4 "train" 500 ok_answer 0.
Proof.
  intros i j Hi Hij Hj _.
  assert (Hn : total_points trace4 = 4) by reflexivity. rewrite Hn in Hj.
  assert (Ei : i = 1 \/ i = 2) by lia.
  destruct Ei as [-> | ->]; vm_compute; reflexivity.
Defined.

(** On [trace2] with the collaborator that finds no route, the run
    succeeds after one call and no key waypoint is added to the first
    raw point. *)
Lemma refuse_all_run :
  clean refuse_all trace2 (start tt)
  = (Returned (Success [origin] [origin] 0 0 (-1) 2),
     {| collaborator := tt; calls := [query01] |}).
Proof. vm_compute. reflexivity. Qed.

(** The same on three points: both raw points after the first are
    skipped. *)
Lemma refuse_all_run_on_trace3 :
  fst (clean refuse_all trace3 (start tt))
  = Returned (Success [origin] [origin] 0 0 (-1) 3).
Proof. vm_compute. reflexivity. Qed.



(** Witness for C2: a trace of one point. *)
Lemma clean_rejects_trace1 :
  Py.len trace1 < 2 /\
  clean refuse_all trace1 (start tt)
  = (Returned (Failure "Need at least 2 waypoints"), start tt).
Proof.
  split; [vm_compute; reflexivity |].
  apply (clean_rejects_short_trace refuse_all trace1 "train" 500 (start tt)).
  vm_compute. reflexivity.
Defined.

(** Counterexample to C3 as stated: the run on [trace2] with no route
    succeeds with a negative [reroute_count]. *)
Lemma reroute_count_can_be_negative :
  exists kw path distance duration rc ratio w',
    clean refuse_all trace2 (start tt)
    = (Returned (Success kw path distance duration rc ratio), w') /\
    rc = Py.len kw - 2 /\ rc < 0.
Proof.
  do 7 eexists. split; [vm_compute; reflexivity |]. split; vm_compute; reflexivity.
Qed.

(** Witness for C3 as amended: the same run, where the count is -1 and
    the result is the first raw point alone. *)
Lemma reroute_count_on_trace2 :
  exists kw path distance duration rc ratio,
    Success [origin] [origin] 0 0 (-1) 2 = Success kw path distance duration rc ratio /\
    rc = Py.len kw - 2 /\ -1 <= rc /\
    (rc = -1 -> path = kw /\ map Some kw = [Py.getitem trace2 0]).
Proof.
  apply (reroute_count_is_unclamped refuse_all trace2 "train" 500
           (start tt) {| collaborator := tt; calls := [query01] |}
           (Success [origin] [origin] 0 0 (-1) 2)).
  - vm_compute. reflexivity.
  - reflexivity.
Defined.

(** Witness for C4: the state after the only pass on [trace2]. *)
Lemma indices_increase_on_trace2 :
  StronglySorted Z.lt (anchor_trace committed_once) /\
  StronglySorted Z.lt (key_indices committed_once).
Proof.
  destruct (anchor_and_key_indices_increase always_ok trace2 "train" 500
              1%nat origin (start tt)
              {| collaborator := tt; calls := repeat query01 3 |}
              committed_once)
    as (H1 & _ & H2 & _).
  - vm_compute. discriminate.
  - reflexivity.
  - vm_compute. reflexivity.
  - split; assumption.
Defined.

(** Witness for C5: the first pass on [trace4] with [always_ok] commits
    index 2, the last valid one. *)
Lemma first_pass_on_trace4 :
  valid trace4 "train" 500 ok_answer 0 3 = false /\
  exists st' w',
    iteration always_ok trace4 "train" 500 (initial_state (0, 0)) (start tt)
    = (Returned st', w') /\
    last_anchor_idx st' = 2.
Proof.
  split; [vm_compute; reflexivity |].
  destruct (search_commits_maximal_index always_ok trace4 "train" 500
              ok_answer ok_answer_deterministic ok_answer_answers
              0%nat origin (start tt) (start tt) (initial_state (0, 0)))
    as (st' & w' & H & _).
  - vm_compute. discriminate.
  - reflexivity.
  - reflexivity.
  - vm_compute. reflexivity.
  - exact (ok_answer_oracle trace4 0 ltac:(lia)).
  - exact ok_answer_monotone.
  - exists st', w'. split; [exact H |].
    vm_compute in H. injection H as <- _. reflexivity.
Defined.

(** C6, the failing run: on [trace2], with a collaborator that finds
    the route on the first call and not afterwards, the pass does not
    fall back to the single-point skip and [clean_gps_route] returns no
    result: it raises at the commit. *)
Theorem clean_aborts_when_route_is_not_repeated :
  fst (clean answer_once trace2 (start 0%nat))
  = Raised (TypeError "'NoneType' object is not subscriptable").
Proof. vm_compute. reflexivity. Qed.

(** Witness for C8: [trace2] with [always_ok]; the only committed
    segment is the route of two points. *)
Lemma path_of_trace2 :
  exists segs last_key,
    segments_from always_ok trace2 "train" 500 0 (start tt) segs
      {| collaborator := tt; calls := repeat query01 3 |} /\
    [origin; east1]
    = map to_dict (concat (map (fun s => removelast (snd s)) segs)) ++ [last_key].
Proof.
  destruct (path_is_concatenation_of_segments always_ok trace2 "train" 500
              (start tt) {| collaborator := tt; calls := repeat query01 3 |}
              [origin; east1] [origin; east1]
              (calculate_path_distance_coords [(0, 0); (1, 0)]) 1 0 0)
    as (segs & last_key & Hsegs & _ & _ & H).
  - vm_compute. reflexivity.
  - exists segs, last_key. split; assumption.
Defined.

(** Witness for C9: the answer [{"code": "NoRoute"}] gives the no-route
    value. *)
Lemma no_route_on_refusal :
  fst (get_route_via_forward_routing refuse_all "rail" [(0, 0); (1, 0)] false
         "train" (start tt))
  = Returned None.
Proof.
  apply (proj1 (routing_client_failure_kinds refuse_all "rail" "train"
                  [(0, 0); (1, 0)] false (start tt))
           body_no_route [("code", JString "NoRoute")] (JString "NoRoute")).
  - reflexivity.
  - reflexivity.
  - reflexivity.
  - discriminate.
Defined.

(** Witness for C10: [trace2] with [answer_once]; the search settles on
    index 1 after two calls, and the third call finds no route. *)
Lemma commit_raises_on_trace2 :
  clean answer_once trace2 (start 0%nat)
  = (Raised (TypeError "'NoneType' object is not subscriptable"), asked 3).
Proof.
  apply (commit_raises_when_route_is_not_repeated answer_once trace2 "train" 500
           0%nat origin origin east1
           (start 0%nat) (start 0%nat) (asked 2) (asked 3) (initial_state (0, 0)) 1).
  - vm_compute. discriminate.
  - reflexivity.
  - reflexivity.
  - vm_compute. reflexivity.
  - reflexivity.
  - vm_compute. reflexivity.
  - vm_compute. reflexivity.
  - reflexivity.
  - vm_compute. reflexivity.
Defined.

(** ** Witnesses for the further theorems *)

(** A collaborator whose answer is neither a [Response] nor a string. *)
Definition garbled (_ _ _ : string) (s : unit) : response * unit := (OtherResponse, s).

(** The state after one call, [query01], to a collaborator without state. *)
Definition asked_once : @world unit := {| collaborator := tt; calls := [query01] |}.

Lemma refuse_all_never_routes : never_routes refuse_all.
Proof. intros p t o s. exists None. split; vm_compute; reflexivity. Defined.



(** Witness for X2: at most 18 calls on the four points of [trace4]. *)
Lemma call_bound_on_trace4 :
  exists new,
    calls (snd (clean always_ok trace4 (start tt))) = calls (start tt) ++ new /\
    (length new <= 18)%nat.
Proof.
  apply (run_call_bound always_ok trace4 "train" 500 2%nat (start tt)).
  vm_compute. discriminate.
Defined.

(** Witness for X3: the first pass on [trace4]. *)
Lemma first_pass_call_bound_on_trace4 :
  exists new,
    calls (snd (iteration always_ok trace4 "train" 500 (initial_state (0, 0))
                  (start tt)))
    = calls (start tt) ++ new /\
    (length new <= 6)%nat.
Proof.
  apply (pass_call_bound always_ok trace4 "train" 500 0%nat 2%nat origin
           (start tt) (start tt) (initial_state (0, 0))).
  - vm_compute. discriminate.
  - reflexivity.
  - reflexivity.
  - vm_compute. reflexivity.
  - vm_compute. discriminate.
Defined.

(** Witness for X4: the pass on [trace2] when no route is found. *)
Lemma skip_on_trace2 :
  iteration refuse_all trace2 "train" 500 (initial_state (0, 0)) (start tt)
  = (Returned (skip_state (initial_state (0, 0))), asked_once).
Proof.
  apply (proj1 (first_probe_decides_skip refuse_all trace2 "train" 500
                  (initial_state (0, 0)) origin east1
                  ltac:(vm_compute; split; [discriminate | reflexivity])
                  eq_refl eq_refl (start tt) asked_once None
                  ltac:(vm_compute; reflexivity))).
  reflexivity.
Defined.

(** Witness for X5: an answer that is neither a [Response] nor a string
    ends the run on [trace2] at its first call. *)
Lemma garbled_answer_ends_run :
  clean garbled trace2 (start tt)
  = (Raised (TypeError "Unsupported response type"), asked_once).
Proof.
  apply (probe_exception_ends_run garbled trace2 "train" 500 0%nat origin origin east1
           (start tt) (start tt) asked_once (initial_state (0, 0))).
  - vm_compute. discriminate.
  - reflexivity.
  - reflexivity.
  - vm_compute. reflexivity.
  - reflexivity.
  - reflexivity.
  - vm_compute. reflexivity.
Defined.

(** The two queries of the first pass on [trace3]. *)
Definition query02 : string * string * string :=
  ("route/v1/rail/0,0;2,0", "train",
   "overview=full&continue_straight=false&snapping=any&radiuses=1000;1000").

(** Witness for X16: on [trace3], with routes of a single point, the
    probe from the first to the third raw point has the second raw point
    to check. *)
Lemma one_point_route_aborts_run :
  clean always_one_point trace3 (start tt)
  = (Raised GEOSException, {| collaborator := tt; calls := [query01; query02] |}).
Proof.
  apply (one_point_route_ends_run always_one_point trace3 "train" 500 0%nat
           origin origin east1 east2
           (start tt) (start tt) asked_once
           {| collaborator := tt; calls := [query01; query02] |}
           (initial_state (0, 0)) (Some [(0, 0)]) (0, 0)).
  - vm_compute. discriminate.
  - reflexivity.
  - reflexivity.
  - vm_compute. discriminate.
  - reflexivity.
  - reflexivity.
  - reflexivity.
  - vm_compute. reflexivity.
  - reflexivity.
  - vm_compute. reflexivity.
Defined.

(** Witness for X6: [trace2] with [always_ok]. *)
Lemma waypoints_of_trace2 :
  exists indices,
    StronglySorted Z.lt indices /\
    Forall (fun i => 0 <= i < Py.len trace2) indices /\
    map Some [origin; east1] = map (Py.getitem trace2) indices.
Proof.
  destruct (waypoints_are_raw_points always_ok trace2 "train" 500
              (start tt) {| collaborator := tt; calls := repeat query01 3 |}
              [origin; east1] [origin; east1]
              (calculate_path_distance_coords [(0, 0); (1, 0)]) 1 0 0)
    as (indices & H1 & _ & H2 & H3 & _).
  - vm_compute. reflexivity.
  - exists indices. repeat split; assumption.
Defined.

(** Witness for X7: the run of [trace3] on which no route is found. *)
Lemma ratio_of_unroutable_trace3 :
  [origin] <> [] /\ 3 = f_div (of_int (Py.len trace3)) (of_int (Py.len [origin])).
Proof.
  destruct (path_is_never_empty refuse_all trace3 "train" 500
              (start tt) (snd (clean refuse_all trace3 (start tt)))
              [origin] [origin] 0 3 0 (-1))
    as (H1 & H2 & _).
  - vm_compute. reflexivity.
  - split; assumption.
Defined.



(** Witness for X11: the answer [{"code": "NoRoute"}]. *)
Lemma refusal_decodes_to_no_route :
  decode_response false (StrResponse body_no_route) = Returned None.
Proof.
  apply (proj2 (no_route_only_when_status_is_not_Ok (StrResponse body_no_route))).
  exists body_no_route, (JObject [("code", JString "NoRoute")]), (JString "NoRoute").
  repeat split; try reflexivity. discriminate.
Defined.


(** Witness for X13: extending the path of one point. *)
Lemma distance_of_two_points :
  calculate_path_distance_coords ([(0, 0)] ++ [(1, 0)])
  = f_add (calculate_path_distance_coords [(0, 0)])
          (haversine_distance (0, 0) (1, 0)).
Proof.
  apply (path_distance_of_extension [(0, 0)] (1, 0) (0, 0)). discriminate.
Defined.

(** Witness for X15: [trace3] with the collaborator that finds no
    route. *)
Lemma unroutable_trace3 :
  exists wp w',
    Py.getitem trace3 0 = Some wp /\
    clean refuse_all trace3 (start tt)
    = (Returned (Success [wp] [wp] (of_int 0) 0 (-1)
                   (f_div (of_int (Py.len trace3)) (of_int 1))), w') /\
    length (calls w') = (length (calls (start tt)) + Z.to_nat (Py.len trace3 - 1))%nat.
Proof.
  apply (unroutable_trace_keeps_first_point refuse_all trace3 "train" 500 (start tt)).
  - vm_compute. discriminate.
  - exact refuse_all_never_routes.
Defined.

End Examples.
